(** * Phabricator plugin of [did]: a shallow embedding and its properties

    The development follows [src/did/plugins/phabricator.py]:
    the Investigator ([Phabricator]), the record models ([Differential],
    [EventType], [TransactionEvent]) and the three report assemblers
    ([DifferentialsCommented], [DifferentialsCreated],
    [DifferentialsReviewed]).

    Python dictionaries that are used as maps ([data_dict]) are [gmap]s
    with string keys; decoded JSON is an inductive type; exceptions are
    an error type threaded through a small state-and-error monad whose
    state holds the Investigator object, the log of the requests posted
    and the [stats] attribute of each assembler. *)

From Stdlib Require Import ZArith Lia Ascii String.
From stdpp Require Import base strings list gmap pretty.

Set Warnings "-register-all".

Local Open Scope string_scope.
Local Open Scope list_scope.
Local Open Scope Z_scope.

(** ** Decoded JSON values

    What [response.json()] hands back: [None], booleans, integers,
    strings, lists and dicts.  A dict is kept as its item list, keys
    unique as in a Python dict; lookup takes the first item of a key.
    Conduit serialises ids and epoch seconds as integers, fractional
    numbers are left out of the model. *)

Inductive json : Type :=
| JNull
| JBool (b : bool)
| JNum (n : Z)
| JStr (s : string)
| JList (items : list json)
| JObj (fields : list (string * json)).

(** ** Exceptions

    [ReportError] is [did]'s own; the others are Python's.  The last
    two are what [datetime.date.fromtimestamp] raises on a timestamp it
    cannot convert. *)

Inductive exn : Type :=
| ReportError (msg : string)
| RuntimeError (msg : string)
| KeyError (key : string)
| TypeError (msg : string)
| AttributeError (msg : string)
| ValueError (msg : string)
| OverflowError (msg : string).

(** The outcome of running a piece of code: a value, a raised exception,
    or [OutOfFuel] when the bounded model of [while True] was stopped
    before the loop left. *)

Inductive result (A : Type) : Type :=
| Ok (a : A)
| Raise (e : exn)
| OutOfFuel.

Arguments Ok {A} a.
Arguments Raise {A} e.
Arguments OutOfFuel {A}.

Module Res.
Definition bind {A B} (r : result A) (k : A → result B) : result B :=
  match r with
  | Ok a => k a
  | Raise e => Raise e
  | OutOfFuel => OutOfFuel
  end.

Fixpoint mapM {A B} (f : A → result B) (l : list A) : result (list B) :=
  match l with
  | [] => Ok []
  | x :: l' =>
      bind (f x) (λ y, bind (mapM f l') (λ ys, Ok (y :: ys)))
  end.
End Res.

Declare Scope res_scope.
Delimit Scope res_scope with res.
Notation "'let?' x ':=' e1 'in' e2" :=
  (Res.bind e1 (λ x, e2))
  (at level 10, x name, e1 at level 100, e2 at level 200) : res_scope.
Local Open Scope res_scope.

(** ** Python built-ins on decoded values *)

Fixpoint assoc (k : string) (kvs : list (string * json)) : option json :=
  match kvs with
  | [] => None
  | (k', v) :: kvs' => if String.eqb k k' then Some v else assoc k kvs'
  end.

(** [v[key]] with a string key. *)
Definition py_getitem (v : json) (key : string) : result json :=
  match v with
  | JObj kvs =>
      match assoc key kvs with
      | Some x => Ok x
      | None => Raise (KeyError key)
      end
  | JList _ => Raise (TypeError "list indices must be integers or slices, not str")
  | JStr _ => Raise (TypeError "string indices must be integers")
  | JNull | JBool _ | JNum _ => Raise (TypeError "object is not subscriptable")
  end.

Fixpoint prefixb (p s : string) : bool :=
  match p, s with
  | EmptyString, _ => true
  | String a p', String b s' => Ascii.eqb a b && prefixb p' s'
  | String _ _, EmptyString => false
  end.

Fixpoint substringb (p s : string) : bool :=
  prefixb p s ||
  match s with
  | EmptyString => false
  | String _ s' => substringb p s'
  end.

Definition is_str (key : string) (v : json) : bool :=
  match v with
  | JStr s => String.eqb s key
  | _ => false
  end.

(** [key in v] with a string key: key membership for a dict, element
    membership for a list, substring test for a string. *)
Definition py_in (key : string) (v : json) : result bool :=
  match v with
  | JObj kvs => Ok (bool_decide (is_Some (assoc key kvs)))
  | JList l => Ok (existsb (is_str key) l)
  | JStr s => Ok (substringb key s)
  | JNull | JBool _ | JNum _ => Raise (TypeError "argument is not iterable")
  end.

Fixpoint chars (s : string) : list json :=
  match s with
  | EmptyString => []
  | String a s' => JStr (String a EmptyString) :: chars s'
  end.

(** The elements [for x in v] (and [list.extend(v)]) runs through. *)
Definition py_iter (v : json) : result (list json) :=
  match v with
  | JList l => Ok l
  | JObj kvs => Ok (map (λ kv, JStr kv.1) kvs)
  | JStr s => Ok (chars s)
  | JNull | JBool _ | JNum _ => Raise (TypeError "object is not iterable")
  end.

(** [v is None] and [v == s] for a string [s]. *)
Definition is_none (v : json) : bool :=
  match v with JNull => true | _ => false end.

Definition py_eq_str (v : json) (s : string) : bool := is_str s v.


(** ** Requests and responses

    [data_dict] is a [gmap] from constraint key to value.  A request is
    what [requests.post(url, data=data_dict)] sends; a response is what
    comes back: the call raises [RequestException], or answers with a
    status code and a body on which [.json()] either decodes a value or
    raises [JSONDecodeError] ([None] here). *)

Record Request : Type := { req_url : string; req_data : gmap string json }.

Inductive Response : Type :=
| RequestException
| HttpResponse (status_code : Z) (body : option json).

(** [datetime.date], as its proleptic Gregorian ordinal
    ([date.toordinal()]): dates compare as their ordinals do, and the
    day after [d] is [d + 1]. *)
Definition date : Type := Z.

(** What the code takes from outside the repository: the network, and
    three library functions whose result depends on the platform. *)
Class Runtime : Type := {
  (** the server: its answer to a request, given the requests posted
      before it *)
  requests_post : list Request → Request → Response;
  (** [repr] of a list or dict, as an f-string prints it *)
  py_repr : json → string;
  (** [datetime.date.fromtimestamp], local time; raises outside the
      platform's range *)
  date_fromtimestamp : Z → result date;
  (** [date.strftime("%s")] *)
  strftime_s : date → string;
}.

(** [f"{v}"] *)
Definition py_str `{!Runtime} (v : json) : string :=
  match v with
  | JNull => "None"
  | JBool true => "True"
  | JBool false => "False"
  | JNum n => pretty n
  | JStr s => s
  | JList _ | JObj _ => py_repr v
  end.

(** ** Record models *)

Module Differential.
(** A Phabricator Differential: the raw record, and the display
    string fixed by [__init__].  [oid] is the identity of the object
    ([id(diff)]): the class defines no [__eq__], so two Differentials
    are the same exactly when they are the same object. *)
Record t : Type := { oid : nat; _data : json; str : string }.

Section methods.
Context `{!Runtime}.

(** [Differential(data, verbose)], for the object [self] *)
Definition init (self : nat) (data : json) (verbose : bool) : result t :=
  if verbose then
    let? fields := py_getitem data "fields" in
    let? uri := py_getitem fields "uri" in
    let? fields' := py_getitem data "fields" in
    let? title := py_getitem fields' "title" in
    Ok {| oid := self; _data := data;
          str := py_str uri +:+ " " +:+ py_str title |}
  else
    let? id := py_getitem data "id" in
    let? fields := py_getitem data "fields" in
    let? title := py_getitem fields "title" in
    Ok {| oid := self; _data := data;
          str := "D" +:+ py_str id +:+ " " +:+ py_str title |}.

Definition phid (self : t) : result json := py_getitem (_data self) "phid".

Definition __str__ (self : t) : string := str self.

(** [self is other] *)
Definition same (self other : t) : bool :=
  bool_decide (oid self = oid other).
End methods.
End Differential.

Module EventType.
Inductive t : Type :=
| COMMENT | INLINE | CREATE | CLOSE | UPDATE | SUMMARY | TITLE
| PROJECTS | REQUEST_REVIEW | REVIEWERS | SUBSCRIBERS | STATUS
| UNDEFINED.

Definition value (typ : t) : string :=
  match typ with
  | COMMENT => "comment"
  | INLINE => "inline"
  | CREATE => "create"
  | CLOSE => "close"
  | UPDATE => "update"
  | SUMMARY => "summary"
  | TITLE => "title"
  | PROJECTS => "projects"
  | REQUEST_REVIEW => "request-review"
  | REVIEWERS => "reviewers"
  | SUBSCRIBERS => "subscribers"
  | STATUS => "status"
  | UNDEFINED => ""
  end.

Definition __str__ (typ : t) : string := value typ.

Global Instance eq_dec : EqDecision t.
Proof. solve_decision. Defined.
End EventType.

Module TransactionEvent.
Import EventType.

Record t : Type := { _data : json; _type : json; _author_phid : json }.

Section methods.
Context `{!Runtime}.

(** [TransactionEvent(data)] *)
Definition init (data : json) : result t :=
  let? type := py_getitem data "type" in
  let? author := py_getitem data "authorPHID" in
  Ok {| _data := data; _type := type; _author_phid := author |}.

(** [datetime.date.fromtimestamp(v)] on a decoded value; a [bool]
    is an [int] in Python. *)
Definition fromtimestamp (v : json) : result date :=
  match v with
  | JNum n => date_fromtimestamp n
  | JBool b => date_fromtimestamp (if b then 1 else 0)
  | JNull | JStr _ | JList _ | JObj _ =>
      Raise (TypeError "an integer is required")
  end.

Definition is_in_date_range (self : t) (since until : option date)
  : result bool :=
  let? stamp := py_getitem (_data self) "dateModified" in
  let? date_modified := fromtimestamp stamp in
  if match since with
     | Some since => negb (date_modified >=? since)
     | None => false
     end
  then Ok false
  else if match until with
          | Some until => negb (date_modified <=? until)
          | None => false
          end
  then Ok false
  else Ok true.

Definition is_type (self : t) (typ : EventType.t) : bool :=
  if decide (typ = UNDEFINED) then
    if is_none (_type self) || py_eq_str (_type self) "" then true
    else false
  else py_eq_str (_type self) (EventType.__str__ typ).

Definition event_type (self : t) : json := _type self.
Definition author_phid (self : t) : json := _author_phid self.

(** [f"{self.author_phid} - {self.event_type} - {self._data['dateModified']}"] *)
Definition __str__ (self : t) : result string :=
  let? stamp := py_getitem (_data self) "dateModified" in
  Ok (py_str (author_phid self) +:+ " - " +:+ py_str (event_type self)
      +:+ " - " +:+ py_str stamp).
End methods.
End TransactionEvent.

(** ** The Investigator object and the state of a run *)

(** [_login_phids] is [None] or a list; [__init__] stores the empty
    list. *)
Record Phabricator : Type := {
  url : string;
  token : string;
  logins : list string;
  _login_phids : option (list json);
}.

Definition MAX_PAGE_SIZE : Z := 100.

(** [s.rstrip("/")] *)
Fixpoint rstrip_slash (s : string) : string :=
  match s with
  | EmptyString => EmptyString
  | String a s' =>
      match rstrip_slash s' with
      | EmptyString => if Ascii.eqb a "/"%char then EmptyString else String a EmptyString
      | r => String a r
      end
  end.

Definition Phabricator_init (u tok : string) (names : list string) : Phabricator :=
  {| url := rstrip_slash u; token := tok; logins := names;
     _login_phids := Some [] |}.

(** The options of a report: [options.verbose], [options.since.date]
    and [options.until.date]. *)
Record Options : Type := {
  verbose : bool;
  since : option date;
  until : option date;
}.

(** The state a run works on: the Investigator ([parent.phabricator]),
    the requests posted so far, what was printed, the identity the next
    new object gets, and the [stats] attribute of each of the three
    assemblers. *)
Record World : Type := {
  phabricator : Phabricator;
  posted : list Request;
  stdout : list string;
  next_id : nat;
  commented_stats : list Differential.t;
  created_stats : list Differential.t;
  reviewed_stats : list Differential.t;
}.

(** ** The monad: state passing with exceptions

    A raised exception keeps the state reached so far, as in Python. *)

Definition M (A : Type) : Type := World → result A * World.

Module Run.
Definition ret {A} (a : A) : M A := λ w, (Ok a, w).
Definition raise {A} (e : exn) : M A := λ w, (Raise e, w).
Definition diverge {A} : M A := λ w, (OutOfFuel, w).
Definition lift {A} (r : result A) : M A := λ w, (r, w).
Definition bind {A B} (m : M A) (k : A → M B) : M B :=
  λ w, match m w with
       | (Ok a, w') => k a w'
       | (Raise e, w') => (Raise e, w')
       | (OutOfFuel, w') => (OutOfFuel, w')
       end.
Definition get : M World := λ w, (Ok w, w).
Definition modify (f : World → World) : M unit := λ w, (Ok tt, f w).

Fixpoint mapM {A B} (f : A → M B) (l : list A) : M (list B) :=
  match l with
  | [] => ret []
  | x :: l' => bind (f x) (λ y, bind (mapM f l') (λ ys, ret (y :: ys)))
  end.
End Run.

Declare Scope run_scope.
Delimit Scope run_scope with run.
Notation "x <~ e1 ;; e2" :=
  (Run.bind e1 (λ x, e2))
  (at level 100, e1 at next level, right associativity) : run_scope.
Notation "e1 ;;; e2" :=
  (Run.bind e1 (λ _, e2))
  (at level 100, right associativity) : run_scope.

Definition set_login_phids (l : list json) (w : World) : World :=
  {| phabricator :=
       {| url := url (phabricator w); token := token (phabricator w);
          logins := logins (phabricator w); _login_phids := Some l |};
     posted := posted w; stdout := stdout w; next_id := next_id w;
     commented_stats := commented_stats w;
     created_stats := created_stats w;
     reviewed_stats := reviewed_stats w |}.

Definition log_request (r : Request) (w : World) : World :=
  {| phabricator := phabricator w; posted := posted w ++ [r];
     stdout := stdout w; next_id := next_id w;
     commented_stats := commented_stats w;
     created_stats := created_stats w;
     reviewed_stats := reviewed_stats w |}.

(** The identity of a new object. *)
Definition new_id : M nat :=
  λ w, (Ok (next_id w),
        {| phabricator := phabricator w; posted := posted w;
           stdout := stdout w; next_id := S (next_id w);
           commented_stats := commented_stats w;
           created_stats := created_stats w;
           reviewed_stats := reviewed_stats w |}).

Definition print (line : string) : M unit :=
  Run.modify (λ w,
    {| phabricator := phabricator w; posted := posted w;
       stdout := stdout w ++ [line]; next_id := next_id w;
       commented_stats := commented_stats w;
       created_stats := created_stats w;
       reviewed_stats := reviewed_stats w |}).

Definition set_commented_stats (l : list Differential.t) : M unit :=
  Run.modify (λ w,
    {| phabricator := phabricator w; posted := posted w;
       stdout := stdout w; next_id := next_id w;
       commented_stats := l;
       created_stats := created_stats w;
       reviewed_stats := reviewed_stats w |}).

Definition set_created_stats (l : list Differential.t) : M unit :=
  Run.modify (λ w,
    {| phabricator := phabricator w; posted := posted w;
       stdout := stdout w; next_id := next_id w;
       commented_stats := commented_stats w;
       created_stats := l;
       reviewed_stats := reviewed_stats w |}).

Definition set_reviewed_stats (l : list Differential.t) : M unit :=
  Run.modify (λ w,
    {| phabricator := phabricator w; posted := posted w;
       stdout := stdout w; next_id := next_id w;
       commented_stats := commented_stats w;
       created_stats := created_stats w;
       reviewed_stats := l |}).

(** ** The Investigator *)

Section Investigator.
Context `{!Runtime}.
Local Open Scope run_scope.

(** [f'{family}[{idx}]'] *)
Definition indexed_key (family : string) (idx : nat) : string :=
  family +:+ "[" +:+ pretty idx +:+ "]".

(** [for idx, login in enumerate(phids): data_dict[f'...[{idx}]'] = login],
    counting from [idx]. *)
Fixpoint set_indexed (family : string) (idx : nat) (phids : list json)
    (data_dict : gmap string json) : gmap string json :=
  match phids with
  | [] => data_dict
  | login :: phids' =>
      set_indexed family (S idx) phids'
        (<[indexed_key family idx := login]> data_dict)
  end.

(** [requests.post(url, data=data_dict)]: the request is logged and
    the server answers. *)
Definition post (u : string) (data_dict : gmap string json) : M Response :=
  λ w, let r := {| req_url := u; req_data := data_dict |} in
       (Ok (requests_post (posted w) r), log_request r w).

(** [if key not in data_dict: data_dict[key] = value] *)
Definition set_default (key : string) (value : json)
    (data_dict : gmap string json) : gmap string json :=
  if decide (is_Some (data_dict !! key)) then data_dict
  else <[key := value]> data_dict.

(** [_get_page]: the decoded page, together with [data_dict] as the
    call leaves it (the dict is updated in place). *)
Definition _get_page (u : string) (data_dict : option (gmap string json))
  : M (json * gmap string json) :=
  let data_dict := default ∅ data_dict in
  let data_dict := set_default "limit" (JNum MAX_PAGE_SIZE) data_dict in
  w <~ Run.get;;
  let data_dict :=
    set_default "api.token" (JStr (token (phabricator w))) data_dict in
  response <~ post u data_dict;;
  match response with
  | RequestException =>
      Run.raise (ReportError ("Phabricator search on " +:+ u +:+ " failed"))
  | HttpResponse status_code body =>
      if negb (status_code =? 200) then
        Run.raise (RuntimeError
          ("Phabricator request exited with status code "
           +:+ pretty status_code +:+ " rather than 200."))
      else
        match body with
        | None =>
            Run.raise (ReportError "Phabricator failed to parse JSON response.")
        | Some decoded =>
            error_info <~ Run.lift (py_getitem decoded "error_info");;
            if negb (is_none error_info) then
              Run.raise (RuntimeError
                ("Phabricator error encountered: " +:+ py_str error_info))
            else Run.ret (decoded, data_dict)
        end
  end.

(** The [while True] loop of [_get_all_pages]; [fuel] bounds the
    number of pages fetched. *)
Fixpoint _get_all_pages_loop (fuel : nat) (u : string)
    (data_dict : gmap string json) (results : list json) : M (list json) :=
  match fuel with
  | O => Run.diverge
  | S fuel' =>
      page <~ _get_page u (Some data_dict);;
      let res := page.1 in
      let data_dict := page.2 in
      has_result <~ Run.lift (py_in "result" res);;
      if negb has_result then
        Run.raise (ReportError "Mising key Phabricator dict: result")
      else
        result_ <~ Run.lift (py_getitem res "result");;
        data <~ Run.lift (py_getitem result_ "data");;
        items <~ Run.lift (py_iter data);;
        let results := results ++ items in
        has_cursor <~ Run.lift (py_in "cursor" res);;
        if has_cursor then
          cursor <~ Run.lift (py_getitem res "cursor");;
          after <~ Run.lift (py_getitem cursor "after");;
          let data_dict := <["after" := after]> data_dict in
          if is_none after then Run.ret results
          else _get_all_pages_loop fuel' u data_dict results
        else Run.ret results
  end.

Definition _get_all_pages (fuel : nat) (u : string)
    (data_dict : option (gmap string json)) : M (list json) :=
  let data_dict := default ∅ data_dict in
  let data_dict := <["after" := JNull]> data_dict in
  _get_all_pages_loop fuel u data_dict [].

(** The [login_phids] property. *)
Definition login_phids (fuel : nat) : M (list json) :=
  w <~ Run.get;;
  let self := phabricator w in
  match _login_phids self with
  | None | Some [] =>
      let u := url self +:+ "/user.search" in
      let data_dict :=
        set_indexed "constraints[usernames]" 0 (JStr <$> logins self) ∅ in
      results <~ _get_all_pages fuel u (Some data_dict);;
      phids <~ Run.lift (Res.mapM (λ user, py_getitem user "phid") results);;
      Run.modify (set_login_phids phids);;;
      Run.ret phids
  | Some cached => Run.ret cached
  end.

(** The constraint mapping [search_diffs] builds before it queries. *)
Definition search_diffs_data_dict (since until : option date)
    (author_phids reviewer_phids : option (list json)) : gmap string json :=
  let data_dict : gmap string json := ∅ in
  let data_dict :=
    match author_phids with
    | Some phids => set_indexed "constraints[authorPHIDs]" 0 phids data_dict
    | None => data_dict
    end in
  let data_dict :=
    match reviewer_phids with
    | Some phids => set_indexed "constraints[authorPHIDs]" 0 phids data_dict
    | None => data_dict
    end in
  let data_dict :=
    match since with
    | Some since => <["constraints[createdStart]" := JStr (strftime_s since)]> data_dict
    | None => data_dict
    end in
  match until with
  | Some until => <["constraints[createdEnd]" := JStr (strftime_s until)]> data_dict
  | None => data_dict
  end.

Definition search_diffs (fuel : nat) (verbose : bool)
    (since until : option date)
    (author_phids reviewer_phids : option (list json))
  : M (list Differential.t) :=
  w <~ Run.get;;
  let u := url (phabricator w) +:+ "/differential.revision.search" in
  let data_dict :=
    search_diffs_data_dict since until author_phids reviewer_phids in
  diffs <~ _get_all_pages fuel u (Some data_dict);;
  Run.mapM (λ diff,
              self <~ new_id;;
              Run.lift (Differential.init self diff verbose)) diffs.

Definition search_transactions (fuel : nat) (diff_phid : json)
    (author_phids : option (list json)) : M (list TransactionEvent.t) :=
  w <~ Run.get;;
  let u := url (phabricator w) +:+ "/transaction.search" in
  let data_dict : gmap string json := <["objectIdentifier" := diff_phid]> ∅ in
  let data_dict :=
    match author_phids with
    | Some phids => set_indexed "constraints[authorPHIDs]" 0 phids data_dict
    | None => data_dict
    end in
  events <~ _get_all_pages fuel u (Some data_dict);;
  Run.lift (Res.mapM TransactionEvent.init events).
End Investigator.

(** ** The report assemblers *)

Section Stats.
Context `{!Runtime}.
Import EventType.
Local Open Scope run_scope.

(** The inner loop of [DifferentialsCommented.fetch] over the events
    of one Differential; it carries [commented_diffs] and
    [closed_diffs]. *)
Fixpoint for_events (options : Options) (diff : Differential.t)
    (events : list TransactionEvent.t)
    (commented_diffs closed_diffs : list Differential.t)
  : M (list Differential.t * list Differential.t) :=
  match events with
  | [] => Run.ret (commented_diffs, closed_diffs)
  | event :: events' =>
      in_range <~ Run.lift
        (TransactionEvent.is_in_date_range event (since options) (until options));;
      if negb in_range then
        print "out of date";;;
        for_events options diff events' commented_diffs closed_diffs
      else if TransactionEvent.is_type event COMMENT
              || TransactionEvent.is_type event INLINE then
        for_events options diff events' (commented_diffs ++ [diff]) closed_diffs
      else if TransactionEvent.is_type event CLOSE then
        for_events options diff events' commented_diffs (closed_diffs ++ [diff])
      else
        for_events options diff events' commented_diffs closed_diffs
  end.

(** The outer loop, over the Differentials found. *)
Fixpoint for_diffs (fuel : nat) (options : Options)
    (diffs : list Differential.t)
    (commented_diffs closed_diffs : list Differential.t)
  : M (list Differential.t * list Differential.t) :=
  match diffs with
  | [] => Run.ret (commented_diffs, closed_diffs)
  | diff :: diffs' =>
      diff_phid <~ Run.lift (Differential.phid diff);;
      author_phids <~ login_phids fuel;;
      events <~ search_transactions fuel diff_phid (Some author_phids);;
      lists <~ for_events options diff events commented_diffs closed_diffs;;
      for_diffs fuel options diffs' lists.1 lists.2
  end.

Definition DifferentialsCommented_fetch (fuel : nat) (options : Options)
  : M unit :=
  author_phids <~ login_phids fuel;;
  diffs <~ search_diffs fuel (verbose options) (since options)
             (until options) (Some author_phids) None;;
  lists <~ for_diffs fuel options diffs [] [];;
  set_commented_stats lists.1.

(** The parameters [search_diffs] declares, and the binding of the
    keywords of a call to them: a keyword that is no parameter raises
    [TypeError]. *)
Definition search_diffs_parameters : list string :=
  ["verbose"; "since"; "until"; "author_phids"; "reviewer_phids"].

Fixpoint bind_keywords (callee : string) (parameters keywords : list string)
  : result unit :=
  match keywords with
  | [] => Ok tt
  | keyword :: keywords' =>
      if bool_decide (keyword ∈ parameters) then
        bind_keywords callee parameters keywords'
      else
        Raise (TypeError (callee +:+ "() got an unexpected keyword argument '"
                          +:+ keyword +:+ "'"))
  end.

(** [d.strftime("%s")] where [d] may be [None]. *)
Definition strftime (d : option date) : result string :=
  match d with
  | Some d => Ok (strftime_s d)
  | None => Raise (AttributeError "'NoneType' object has no attribute 'strftime'")
  end.

Definition DifferentialsCreated_fetch (fuel : nat) (options : Options)
  : M unit :=
  phids <~ login_phids fuel;;
  let data_dict := set_indexed "constraints[authorPHIDs]" 0 phids ∅ in
  created_start <~ Run.lift (strftime (since options));;
  let data_dict := <["constraints[createdStart]" := JStr created_start]> data_dict in
  created_end <~ Run.lift (strftime (until options));;
  let data_dict := <["constraints[createdEnd]" := JStr created_end]> data_dict in
  (* search_diffs(data_dict=data_dict, verbose=self.options.verbose) *)
  Run.lift (bind_keywords "search_diffs" search_diffs_parameters
              ["data_dict"; "verbose"]);;;
  diffs <~ search_diffs fuel (verbose options) None None None None;;
  set_created_stats diffs.

Definition DifferentialsReviewed_fetch (fuel : nat) (options : Options)
  : M unit :=
  phids <~ login_phids fuel;;
  let data_dict := set_indexed "constraints[reviewerPHIDs]" 0 phids ∅ in
  modified_start <~ Run.lift (strftime (since options));;
  let data_dict := <["constraints[modifiedStart]" := JStr modified_start]> data_dict in
  modified_end <~ Run.lift (strftime (until options));;
  let data_dict := <["constraints[modifiedEnd]" := JStr modified_end]> data_dict in
  (* search_diffs(data_dict=data_dict, verbose=self.options.verbose) *)
  Run.lift (bind_keywords "search_diffs" search_diffs_parameters
              ["data_dict"; "verbose"]);;;
  diffs <~ search_diffs fuel (verbose options) None None None None;;
  set_reviewed_stats diffs.
End Stats.

(** ** The stats group

    [PhabricatorStats.__init__] checks the configuration section and
    builds the Investigator.  The section is a map from option name to
    value; [get_token] (of [did.base]) and [str.strip] are taken as
    given. *)

Inductive configured (A : Type) : Type :=
| Configured (a : A)
| ConfigError (msg : string).

Arguments Configured {A} a.
Arguments ConfigError {A} msg.

(** [s.split(",")] *)
Fixpoint split_comma (s : string) : list string :=
  match s with
  | EmptyString => [EmptyString]
  | String c s' =>
      if Ascii.eqb c ","%char then EmptyString :: split_comma s'
      else
        match split_comma s' with
        | field :: fields => String c field :: fields
        | [] => [String c EmptyString]
        end
  end.

Section StatsGroup.
Variable get_token : gmap string string → option string.
Variable str_strip : string → string.

Definition PhabricatorStats_init (option : string)
    (config : gmap string string) : configured Phabricator :=
  match config !! "url" with
  | None =>
      ConfigError ("No phabricator url set in the [" +:+ option +:+ "] section")
  | Some config_url =>
      match get_token config with
      | None =>
          ConfigError
            ("No token or token_file set in the [" +:+ option +:+ "] section")
      | Some config_token =>
          match config !! "login" with
          | None =>
              ConfigError ("No login set in the [" +:+ option +:+ "] section")
          | Some login =>
              let names := str_strip <$> split_comma login in
              if bool_decide (names = []) then
                ConfigError ("Empty login found in [" +:+ option +:+ "] setion")
              else Configured (Phabricator_init config_url config_token names)
          end
      end
  end.
End StatsGroup.

(** * Vocabulary of the statements

    What the properties below are stated with: how a run changes the
    state, what a request carries, what a served page sequence is, and
    how an event counts for the "Commented" report. *)

Section Vocabulary.
Context `{!Runtime}.
Import EventType.

(** ** Dates *)

(** The window test on a calendar date. *)
Definition in_window (d : date) (since until : option date) : Prop :=
  from_option (λ s, s ≤ d) True since ∧ from_option (λ u, d ≤ u) True until.

Global Instance in_window_dec d since until : Decision (in_window d since until).
Proof. unfold in_window. destruct since, until; simpl; apply _. Defined.

(** ** How a run changes the state *)

(** [preserves R m]: running [m] takes every state to an [R]-related
    one, whatever the outcome. *)
Definition preserves {A} (R : relation World) (m : M A) : Prop :=
  ∀ w, R w (m w).2.

(** The configuration of the Investigator is unchanged. *)
Definition same_config (p p' : Phabricator) : Prop :=
  url p' = url p ∧ token p' = token p ∧ logins p' = logins p.

(** [posts P w w']: from [w] to [w'] the configuration stays and the
    requests posted in between all satisfy [P url token], for the
    configured [url] and [token]. *)
Definition posts (P : string → string → Request → Prop) : relation World :=
  λ w w',
    same_config (phabricator w) (phabricator w')
    ∧ ∃ new, posted w' = posted w ++ new
             ∧ Forall (P (url (phabricator w)) (token (phabricator w))) new.

(** The [stats] of the three assemblers are unchanged. *)
Definition keeps_stats : relation World :=
  λ w w',
    commented_stats w' = commented_stats w
    ∧ created_stats w' = created_stats w
    ∧ reviewed_stats w' = reviewed_stats w.

Global Instance posts_preorder P : PreOrder (posts P).
Proof.
  split.
  - intros w. split; [done|]. exists []. by rewrite app_nil_r.
  - intros w1 w2 w3 [(Hu & Ht & Hl) (n1 & Hp1 & HP1)] [(Hu' & Ht' & Hl') (n2 & Hp2 & HP2)].
    split; [unfold same_config; repeat split; congruence|].
    exists (n1 ++ n2). split.
    + rewrite Hp2, Hp1. by rewrite <- app_assoc.
    + apply Forall_app. split; [done|]. by rewrite <- Hu, <- Ht.
Qed.

Global Instance keeps_stats_preorder : PreOrder keeps_stats.
Proof.
  split.
  - by intros w.
  - intros w1 w2 w3 (?&?&?) (?&?&?). unfold keeps_stats.
    repeat split; congruence.
Qed.

(** ** Requests and pages *)

(** The mapping a call of [_get_page] sends for [data_dict]. *)
Definition prepared (tok : string) (data_dict : gmap string json)
  : gmap string json :=
  set_default "api.token" (JStr tok)
    (set_default "limit" (JNum MAX_PAGE_SIZE) data_dict).

(** The request a call of [_get_page] posts in state [w]. *)
Definition page_request (w : World) (u : string)
    (data_dict : gmap string json) : Request :=
  {| req_url := u;
     req_data := prepared (token (phabricator w)) data_dict |}.

(** The requests of one paginated fetch: every one goes to [u] and
    carries [data_dict] with the two defaults, the cursor apart. *)
Definition page_of (u : string) (data_dict : gmap string json)
  : string → string → Request → Prop :=
  λ _ tok r,
    req_url r = u
    ∧ ∀ k, k ≠ "after" → req_data r !! k = prepared tok data_dict !! k.

(** What the loop of [_get_all_pages] reads off a decoded page: its
    records, and the ["after"] value of its cursor container when it
    has one. *)
Definition read_page (res : json) : result (list json * option json) :=
  let? has_result := py_in "result" res in
  if negb has_result then
    Raise (ReportError "Mising key Phabricator dict: result")
  else
    let? result_ := py_getitem res "result" in
    let? data := py_getitem result_ "data" in
    let? items := py_iter data in
    let? has_cursor := py_in "cursor" res in
    if has_cursor then
      let? cursor := py_getitem res "cursor" in
      let? after := py_getitem cursor "after" in
      Ok (items, Some after)
    else Ok (items, None).

(** [res] carries a results container whose record list is
    [records], and no API error. *)
Definition page_records (res : json) (records : list json) : Prop :=
  py_getitem res "error_info" = Ok JNull
  ∧ ∃ result_, py_getitem res "result" = Ok result_
               ∧ py_getitem result_ "data" = Ok (JList records).

(** [res] ends the sequence: no cursor container, or one whose
    ["after"] is null. *)
Definition last_page (res : json) : Prop :=
  py_in "cursor" res = Ok false
  ∨ ∃ cursor, py_getitem res "cursor" = Ok cursor
              ∧ py_getitem cursor "after" = Ok JNull.

(** [res] points to a next page, at [after]. *)
Definition next_page (res : json) (after : json) : Prop :=
  ∃ cursor, py_getitem res "cursor" = Ok cursor
            ∧ py_getitem cursor "after" = Ok after
            ∧ after ≠ JNull.

(** [serves u tok before data_dict pages]: to a fetch at [u] that
    starts from [data_dict] after the requests [before], the server
    answers with the finite page sequence whose record lists are
    [pages]: with status 200, one page per request, each pointing to
    the next, and the last one ending the sequence. *)
Inductive serves (u tok : string)
  : list Request → gmap string json → list (list json) → Prop :=
| serves_last before data_dict res records :
    requests_post before {| req_url := u; req_data := prepared tok data_dict |}
    = HttpResponse 200 (Some res) →
    page_records res records →
    last_page res →
    serves u tok before data_dict [records]
| serves_next before data_dict res records after pages :
    requests_post before {| req_url := u; req_data := prepared tok data_dict |}
    = HttpResponse 200 (Some res) →
    page_records res records →
    next_page res after →
    serves u tok
      (before ++ [{| req_url := u; req_data := prepared tok data_dict |}])
      (<["after" := after]> (prepared tok data_dict)) pages →
    serves u tok before data_dict (records :: pages).

(** The request carries the configured token and the maximum page
    size. *)
Definition carries_defaults : string → string → Request → Prop :=
  λ _ tok r,
    req_data r !! "api.token" = Some (JStr tok)
    ∧ req_data r !! "limit" = Some (JNum MAX_PAGE_SIZE).

(** The requests of the [login_phids] property go to [user.search]. *)
Definition user_search : string → string → Request → Prop :=
  λ u tok r, req_url r = u +:+ "/user.search" ∧ carries_defaults u tok r.

(** ** The "Commented" report *)

Global Instance exn_eq_dec : EqDecision exn.
Proof. solve_decision. Defined.

Global Instance result_eq_dec {A} `{!EqDecision A} : EqDecision (result A).
Proof. solve_decision. Defined.

(** The event counts for the report: it falls within the window and
    is of type comment or inline-comment. *)
Definition qualifies (options : Options) (event : TransactionEvent.t) : bool :=
  match TransactionEvent.is_in_date_range event (since options) (until options) with
  | Ok true =>
      TransactionEvent.is_type event COMMENT
      || TransactionEvent.is_type event INLINE
  | _ => false
  end.

(** The window test returns on the event (its timestamp is there and
    converts to a date). *)
Definition dated (options : Options) (event : TransactionEvent.t) : Prop :=
  ∃ b, TransactionEvent.is_in_date_range event (since options) (until options)
       = Ok b.

(** The events on which the window test returns false: each of them
    has one line printed. *)
Definition out_of_window (options : Options)
    (events : list TransactionEvent.t) : list TransactionEvent.t :=
  filter (λ event,
            TransactionEvent.is_in_date_range event (since options)
              (until options) = Ok false) events.

(** The state after [n] lines were printed. *)
Definition printed (n : nat) (w : World) : World :=
  {| phabricator := phabricator w; posted := posted w;
     stdout := stdout w ++ replicate n "out of date"; next_id := next_id w;
     commented_stats := commented_stats w;
     created_stats := created_stats w;
     reviewed_stats := reviewed_stats w |}.

(** How often the object [diff] occurs in a list (by identity, as
    [list.count] does for a class without [__eq__]). *)
Definition occurrences (diff : Differential.t) (l : list Differential.t) : nat :=
  length (filter (λ d, Differential.oid d = Differential.oid diff) l).

(** What one Differential contributes to [commented_diffs]. *)
Definition contribution (options : Options) (diff : Differential.t)
    (events : list TransactionEvent.t) : list Differential.t :=
  replicate (length (filter (λ event, qualifies options event = true) events)) diff.

(** [fetched fuel options w diffs eventss w']: the outer loop, run
    from [w] over [diffs], is served the transactions [eventss], one
    list per Differential, all of them dated, and ends in [w']. *)
Inductive fetched (fuel : nat) (options : Options)
  : World → list Differential.t → list (list TransactionEvent.t) → World → Prop :=
| fetched_nil w : fetched fuel options w [] [] w
| fetched_cons w diff diffs diff_phid author_phids w1 events w2 eventss w3 :
    Differential.phid diff = Ok diff_phid →
    login_phids fuel w = (Ok author_phids, w1) →
    search_transactions fuel diff_phid (Some author_phids) w1 = (Ok events, w2) →
    Forall (dated options) events →
    fetched fuel options
      (printed (length (out_of_window options events)) w2) diffs eventss w3 →
    fetched fuel options w (diff :: diffs) (events :: eventss) w3.

(** What the Differentials contribute, in their order. *)
Definition contributions (options : Options) (diffs : list Differential.t)
    (eventss : list (list TransactionEvent.t)) : list Differential.t :=
  concat (zip_with (contribution options) diffs eventss).

(** [diff in l], by identity. *)
Definition kept (diff : Differential.t) (l : list Differential.t) : Prop :=
  ∃ d, d ∈ l ∧ Differential.oid d = Differential.oid diff.

(** ** Requests of a fetch, page by page *)

(** The request of a fetch of [data_dict] at [u] that carries the
    cursor [after]. *)
Definition cursor_request (u tok : string) (data_dict : gmap string json)
    (after : json) : Request :=
  {| req_url := u; req_data := <["after" := after]> (prepared tok data_dict) |}.

(** The state after the requests [rs] were posted. *)
Definition log_requests (rs : list Request) (w : World) : World :=
  {| phabricator := phabricator w; posted := posted w ++ rs;
     stdout := stdout w; next_id := next_id w;
     commented_stats := commented_stats w;
     created_stats := created_stats w;
     reviewed_stats := reviewed_stats w |}.

(** The requests that fetch the pages [pages] (records and next cursor
    of each), the first of them with the cursor [after], and the cursor
    that follows them. *)
Fixpoint prefix_requests (u tok : string) (data_dict : gmap string json)
    (after : json) (pages : list (list json * json)) : list Request :=
  match pages with
  | [] => []
  | page :: pages' =>
      cursor_request u tok data_dict after
      :: prefix_requests u tok data_dict page.2 pages'
  end.

Fixpoint next_cursor (after : json) (pages : list (list json * json)) : json :=
  match pages with
  | [] => after
  | page :: pages' => next_cursor page.2 pages'
  end.

(** [pages_served u tok data_dict before after pages]: after the
    requests [before], the server answers the requests of the fetch,
    from the cursor [after] on, with the pages [pages], each with
    status 200, a results container and a cursor that is not null. *)
Fixpoint pages_served (u tok : string) (data_dict : gmap string json)
    (before : list Request) (after : json)
    (pages : list (list json * json)) : Prop :=
  match pages with
  | [] => True
  | page :: pages' =>
      (∃ res,
         requests_post before (cursor_request u tok data_dict after)
         = HttpResponse 200 (Some res)
         ∧ page_records res page.1
         ∧ next_page res page.2)
      ∧ pages_served u tok data_dict
          (before ++ [cursor_request u tok data_dict after]) page.2 pages'
  end.

(** The response to the request that follows the pages [pages] of a
    fetch started in [w]. *)
Definition response_after (u : string) (data_dict : gmap string json)
    (w : World) (pages : list (list json * json)) : Response :=
  let tok := token (phabricator w) in
  requests_post
    (posted w ++ prefix_requests u tok data_dict JNull pages)
    (cursor_request u tok data_dict (next_cursor JNull pages)).

(** The state in which a fetch started in [w] ends when it stops at the
    request that follows the pages [pages]. *)
Definition stopped_after (u : string) (data_dict : gmap string json)
    (w : World) (pages : list (list json * json)) : World :=
  let tok := token (phabricator w) in
  log_requests
    (prefix_requests u tok data_dict JNull pages
     ++ [cursor_request u tok data_dict (next_cursor JNull pages)]) w.

(** ** What the operations leave as it is *)

(** The Investigator object is as it was. *)
Definition keeps_investigator : relation World :=
  λ w w', phabricator w' = phabricator w.

Global Instance keeps_investigator_preorder : PreOrder keeps_investigator.
Proof.
  split; [by intros w|].
  intros w1 w2 w3 H1 H2. unfold keeps_investigator in *. congruence.
Qed.

(** Nothing is printed. *)
Definition keeps_stdout : relation World :=
  λ w w', stdout w' = stdout w.

Global Instance keeps_stdout_preorder : PreOrder keeps_stdout.
Proof.
  split; [by intros w|].
  intros w1 w2 w3 H1 H2. unfold keeps_stdout in *. congruence.
Qed.

(** Nothing but the log of requests has changed. *)
Definition logs_only : relation World :=
  λ w w', ∃ rs, w' = log_requests rs w.

(** The [i]-th identifier of an optional list. *)
Definition nth_phid (phids : option (list json)) (i : nat) : option json :=
  phids ≫= (λ l, l !! i).

(** The mapping [login_phids] queries with. *)
Definition usernames_data_dict (self : Phabricator) : gmap string json :=
  set_indexed "constraints[usernames]" 0 (JStr <$> logins self) ∅.

(** The mapping [search_transactions] queries with. *)
Definition transactions_data_dict (diff_phid : json)
    (author_phids : option (list json)) : gmap string json :=
  match author_phids with
  | Some phids =>
      set_indexed "constraints[authorPHIDs]" 0 phids
        (<["objectIdentifier" := diff_phid]> ∅)
  | None => <["objectIdentifier" := diff_phid]> ∅
  end.

(** ** Records and their views *)

(** The Differentials [search_diffs] builds for the records of a
    fetch, the first of them with the identity [first]. *)
Fixpoint differentials_of (verbose : bool) (first : nat)
    (records : list json) : result (list Differential.t) :=
  match records with
  | [] => Ok []
  | record :: records' =>
      let? diff := Differential.init first record verbose in
      let? diffs := differentials_of verbose (S first) records' in
      Ok (diff :: diffs)
  end.

(** ** Configuration strings *)

(** [",".join(fields)] *)
Fixpoint join_comma (fields : list string) : string :=
  match fields with
  | [] => EmptyString
  | [field] => field
  | field :: fields' => field +:+ "," +:+ join_comma fields'
  end.

(** The number of commas of a string. *)
Fixpoint commas (s : string) : nat :=
  match s with
  | EmptyString => 0
  | String c s' => (if Ascii.eqb c ","%char then 1 else 0) + commas s'
  end.

(** [n] slashes. *)
Fixpoint slashes (n : nat) : string :=
  match n with
  | O => EmptyString
  | S n' => String "/"%char (slashes n')
  end.

End Vocabulary.

(** * Concrete inputs

    A server that answers from a script: the [n]-th request posted gets
    the [n]-th scripted response, and a connection error once the
    script is used up.  Dates are UTC days since the epoch. *)

Definition scripted (script : list Response) : Runtime :=
  {| requests_post := λ before _,
       nth (length before) script RequestException;
     py_repr := λ _, "<object>";
     date_fromtimestamp := λ t, Ok (t `div` 86400);
     strftime_s := λ d, pretty (d * 86400) |}.

(** A well-formed response envelope. *)
Definition page (records : list json) (cursor : option json) : json :=
  JObj ([("result", JObj [("data", JList records)])]
        ++ match cursor with
           | Some after => [("cursor", JObj [("after", after)])]
           | None => []
           end
        ++ [("error_info", JNull)]).

Definition ok_page (records : list json) (cursor : option json) : Response :=
  HttpResponse 200 (Some (page records cursor)).

(** A fresh Investigator for two logins, before any request. *)
Definition world0 : World :=
  {| phabricator := Phabricator_init "https://reviews.llvm.org/api/" "api-tok" ["alice"; "bob"];
     posted := []; stdout := []; next_id := 0;
     commented_stats := []; created_stats := []; reviewed_stats := [] |}.

(** Two pages of records, the second one with a null cursor. *)
Definition two_pages : Runtime :=
  scripted [ok_page [JNum 1; JNum 2] (Some (JStr "X"));
            ok_page [JNum 3] (Some JNull)].

(** One login that resolves to one identifier. *)
Definition one_login : Runtime :=
  scripted [ok_page [JObj [("phid", JStr "PHID-USER-a")]] (Some JNull)].

(** A response with status 200 that carries an API error. *)
Definition api_error : Runtime :=
  scripted [HttpResponse 200
              (Some (JObj [("result", JNull);
                           ("error_info", JStr "Session key is not present.")]))].

(** An event modified one second into day 5 (UTC). *)
Definition event_day5 : TransactionEvent.t :=
  {| TransactionEvent._data := JObj [("dateModified", JNum 432001)];
     TransactionEvent._type := JStr "comment";
     TransactionEvent._author_phid := JStr "PHID-USER-a" |}.

(** A run of the "Commented" report: one login, one authored
    Differential, and four events of it, of which the first two count
    (a comment and an inline comment on day 5), the third is a close on
    day 5 and the fourth a comment on day 10, outside the window. *)
Definition event_record (type : string) (stamp : Z) : json :=
  JObj [("type", JStr type); ("authorPHID", JStr "PHID-USER-a");
        ("dateModified", JNum stamp)].

Definition diff_record : json :=
  JObj [("id", JNum 134852); ("phid", JStr "PHID-DREV-6vyv");
        ("fields", JObj [("title", JStr "Clean up"); ("uri", JStr "https://reviews.llvm.org/D134852")])].

Definition commented_run : Runtime :=
  scripted [ok_page [JObj [("phid", JStr "PHID-USER-a")]] (Some JNull);
            ok_page [diff_record] (Some JNull);
            ok_page [event_record "comment" 432000;
                     event_record "inline" 432001;
                     event_record "close" 432002;
                     event_record "comment" 900000] None].

Definition day5 : Options :=
  {| verbose := false; since := Some 5; until := Some 5 |}.

Definition the_diff : Differential.t :=
  {| Differential.oid := 0; Differential._data := diff_record;
     Differential.str := "D134852 Clean up" |}.

Definition the_events : list TransactionEvent.t :=
  map (λ data, {| TransactionEvent._data := data;
                  TransactionEvent._type :=
                    match py_getitem data "type" with Ok v => v | _ => JNull end;
                  TransactionEvent._author_phid := JStr "PHID-USER-a" |})
    [event_record "comment" 432000; event_record "inline" 432001;
     event_record "close" 432002; event_record "comment" 900000].

Definition after_login : World := (@login_phids commented_run 5 world0).2.

Definition after_search : World :=
  (@search_diffs commented_run 5 false (Some 5) (Some 5)
     (Some [JStr "PHID-USER-a"]) None after_login).2.

Definition after_transactions : World :=
  (@search_transactions commented_run 5 (JStr "PHID-DREV-6vyv")
     (Some [JStr "PHID-USER-a"]) after_search).2.

(** A server that answers the first request with a page of one record
    that points on, at the cursor [X], and the second request with
    [response]. *)
Definition then_response (response : Response) : Runtime :=
  scripted [ok_page [JNum 1] (Some (JStr "X")); response].

(** The page it serves first: its record and its cursor. *)
Definition first_page : list (list json * json) := [([JNum 1], JStr "X")].

(** A server that answers every request with a page that points on. *)
Definition endless : Runtime :=
  {| requests_post := λ _ _, ok_page [JNum 1] (Some (JStr "X"));
     py_repr := λ _, "<object>";
     date_fromtimestamp := λ t, Ok (t `div` 86400);
     strftime_s := λ d, pretty (d * 86400) |}.

(** A server with one Differential, and one with one event. *)
Definition one_diff : Runtime := scripted [ok_page [diff_record] (Some JNull)].

Definition one_event : Runtime :=
  scripted [ok_page [event_record "comment" 432000] None].

(** An event of a type the enumeration does not list. *)
Definition event_accept : TransactionEvent.t :=
  {| TransactionEvent._data := event_record "accept" 432000;
     TransactionEvent._type := JStr "accept";
     TransactionEvent._author_phid := JStr "PHID-USER-a" |}.

(** * Properties *)

(** The model runs: a fetch over two scripted pages. *)
Example get_all_pages_two_pages :
  let rt := scripted [ok_page [JNum 1; JNum 2] (Some (JStr "X"));
                      ok_page [JNum 3] (Some JNull)] in
  (_get_all_pages 5 "u" (Some ∅) world0).1 = Ok [JNum 1; JNum 2; JNum 3].
Proof. vm_compute. reflexivity. Qed.

(** Two logins resolved to two identifiers; an author search over two
    pages, of 100 and of 3 records, yields 103 Differentials, in page
    order, after two requests. *)
Example author_search_two_pages :
  let rt := scripted [ok_page (replicate 100 diff_record) (Some (JStr "X"));
                      ok_page (replicate 3 diff_record) (Some JNull)] in
  let run := search_diffs 5 false (Some 5) (Some 9)
               (Some [JStr "PHID-A"; JStr "PHID-B"]) None world0 in
  (match run.1 with
   | Ok diffs => Differential.oid <$> diffs = seq 0 103
   | _ => False
   end)
  ∧ length (posted run.2) = 2%nat.
Proof. vm_compute. split; reflexivity. Qed.

(** An inline comment on the [until] day of the window is reported; a
    Differential with nothing but a close is not: the run of
    [commented_run] stores the Differential for its comment and its
    inline comment, and prints one line for the event outside the
    window. *)
Example commented_run_stats :
  let run := @DifferentialsCommented_fetch commented_run 5 day5 world0 in
  run.1 = Ok tt
  ∧ Differential.str <$> commented_stats run.2
    = ["D134852 Clean up"; "D134852 Clean up"]
  ∧ stdout run.2 = ["out of date"].
Proof. vm_compute. repeat split; reflexivity. Qed.

(** ** Record models *)

Section RecordModels.
Import EventType TransactionEvent.

Lemma py_eq_str_true (v : json) (s : string) :
  py_eq_str v s = true ↔ v = JStr s.
Proof.
  unfold py_eq_str, is_str. destruct v; split; try discriminate.
  - intros Heq. apply String.eqb_eq in Heq. by subst.
  - intros [= ->]. apply String.eqb_refl.
Qed.

Lemma is_none_true (v : json) : is_none v = true ↔ v = JNull.
Proof. destruct v; simpl; split; congruence. Qed.

(** C8: [is_type(UNDEFINED)] holds exactly for a raw type that is
    [None] or the empty string; for every other kind, [is_type(kind)]
    holds exactly when the raw type is that kind's string value; and
    [is_type(UNDEFINED)] is false on every non-empty type string. *)
Theorem is_type_spec (ev : TransactionEvent.t) (kind : EventType.t) :
  (is_type ev kind = true ↔
     match kind with
     | UNDEFINED => _type ev = JNull ∨ _type ev = JStr ""
     | _ => _type ev = JStr (value kind)
     end)
  ∧ (∀ data author a s,
       is_type {| _data := data; _type := JStr (String a s);
                  _author_phid := author |} UNDEFINED = false).
Proof.
  split.
  - unfold is_type. destruct (decide (kind = UNDEFINED)) as [->|Hne].
    + destruct (is_none (_type ev) || py_eq_str (_type ev) "") eqn:Hor.
      * apply orb_true_iff in Hor.
        rewrite is_none_true, py_eq_str_true in Hor. tauto.
      * apply orb_false_iff in Hor as [Hn Hs].
        split; [discriminate|]. intros [Hv|Hv].
        -- apply is_none_true in Hv. congruence.
        -- apply py_eq_str_true in Hv. congruence.
    + rewrite py_eq_str_true. unfold EventType.__str__.
      destruct kind; try reflexivity. by destruct Hne.
  - intros data author a s. reflexivity.
Qed.

Context `{!Runtime}.

Lemma is_in_date_range_eq (ev : TransactionEvent.t) (stamp : json) (d : date)
    (since until : option date) :
  py_getitem (_data ev) "dateModified" = Ok stamp →
  fromtimestamp stamp = Ok d →
  is_in_date_range ev since until = Ok (bool_decide (in_window d since until)).
Proof.
  intros Hstamp Hd. unfold is_in_date_range.
  rewrite Hstamp. cbn [Res.bind]. rewrite Hd. cbn [Res.bind].
  destruct since as [s|], until as [u|];
    repeat match goal with
      | |- context [?x >=? ?y] => destruct (Z.geb_spec x y)
      | |- context [?x <=? ?y] => destruct (Z.leb_spec x y)
      end; cbn [negb]; f_equal; symmetry;
    (apply bool_decide_eq_true_2 || apply bool_decide_eq_false_2);
    unfold in_window; simpl; lia.
Qed.

(** C7: for an event whose modification timestamp [t] converts to the
    calendar date [d], [is_in_date_range(since, until)] returns true
    exactly when [since <= d] (if [since] is given) and [d <= until]
    (if [until] is given).  With no bound it is true; it is true at
    [d = since] and at [d = until] (the other bound absent or on the
    far side), false the day before [since] and the day after
    [until]. *)
Theorem is_in_date_range_spec (ev : TransactionEvent.t) (t : Z) (d : date) :
  py_getitem (_data ev) "dateModified" = Ok (JNum t) →
  date_fromtimestamp t = Ok d →
  (∀ since until,
     ∃ b, is_in_date_range ev since until = Ok b
          ∧ (b = true ↔
               (∀ s, since = Some s → s ≤ d) ∧ (∀ u, until = Some u → d ≤ u)))
  ∧ is_in_date_range ev None None = Ok true
  ∧ is_in_date_range ev (Some d) None = Ok true
  ∧ is_in_date_range ev None (Some d) = Ok true
  ∧ (∀ u, d ≤ u → is_in_date_range ev (Some d) (Some u) = Ok true)
  ∧ (∀ s, s ≤ d → is_in_date_range ev (Some s) (Some d) = Ok true)
  ∧ (∀ until, is_in_date_range ev (Some (d + 1)) until = Ok false)
  ∧ (∀ since, is_in_date_range ev since (Some (d - 1)) = Ok false).
Proof.
  intros Hstamp Hd.
  assert (Heq : ∀ since until,
    is_in_date_range ev since until
    = Ok (bool_decide (in_window d since until)))
    by (intros; by eapply is_in_date_range_eq).
  repeat split.
  - intros lo hi. eexists. split; [apply Heq|].
    rewrite bool_decide_eq_true. unfold in_window.
    destruct lo, hi; simpl; split.
    all: try (intros [? ?]; split; intros ? [= <-]; done).
    all: try (intros [Hs Hu]; split; auto).
    all: intros; split; intros; done.
  - rewrite Heq. by rewrite bool_decide_eq_true_2 by (unfold in_window; simpl; lia).
  - rewrite Heq. by rewrite bool_decide_eq_true_2 by (unfold in_window; simpl; lia).
  - rewrite Heq. by rewrite bool_decide_eq_true_2 by (unfold in_window; simpl; lia).
  - intros u Hu. rewrite Heq.
    by rewrite bool_decide_eq_true_2 by (unfold in_window; simpl; lia).
  - intros s Hs. rewrite Heq.
    by rewrite bool_decide_eq_true_2 by (unfold in_window; simpl; lia).
  - intros hi. rewrite Heq.
    by rewrite bool_decide_eq_false_2
      by (unfold in_window; destruct hi; simpl; lia).
  - intros lo. rewrite Heq.
    by rewrite bool_decide_eq_false_2
      by (unfold in_window; destruct lo; simpl; lia).
Qed.
End RecordModels.

(** ** How a run changes the state

    For a preorder [R], [preserves R] is closed under the operations of
    the monad. *)

Section Preserves.
Context (R : relation World) `{!PreOrder R}.

Lemma preserves_ret {A} (a : A) : preserves R (Run.ret a).
Proof. intros w. simpl. reflexivity. Qed.

Lemma preserves_raise {A} (e : exn) : preserves R (@Run.raise A e).
Proof. intros w. simpl. reflexivity. Qed.

Lemma preserves_diverge {A} : preserves R (@Run.diverge A).
Proof. intros w. simpl. reflexivity. Qed.

Lemma preserves_lift {A} (r : result A) : preserves R (Run.lift r).
Proof. intros w. simpl. reflexivity. Qed.

Lemma preserves_get : preserves R Run.get.
Proof. intros w. simpl. reflexivity. Qed.

Lemma preserves_bind {A B} (m : M A) (k : A → M B) :
  preserves R m → (∀ a, preserves R (k a)) → preserves R (Run.bind m k).
Proof.
  intros Hm Hk w. unfold Run.bind. specialize (Hm w).
  destruct (m w) as [[a|e|] w']; simpl in *; try done.
  etrans; [apply Hm|apply Hk].
Qed.

Lemma preserves_mapM {A B} (f : A → M B) (l : list A) :
  (∀ a, preserves R (f a)) → preserves R (Run.mapM f l).
Proof.
  intros Hf. induction l as [|x l IH]; simpl.
  - apply preserves_ret.
  - apply preserves_bind; [apply Hf|]. intros y.
    apply preserves_bind; [apply IH|]. intros ys. apply preserves_ret.
Qed.
End Preserves.

Lemma preserves_weaken {A} (R R' : relation World) (m : M A) :
  (∀ w w', R w w' → R' w w') → preserves R m → preserves R' m.
Proof. intros HR Hm w. apply HR, Hm. Qed.

Lemma posts_weaken (P Q : string → string → Request → Prop) w w' :
  (∀ u tok r, P u tok r → Q u tok r) → posts P w w' → posts Q w w'.
Proof.
  intros HPQ [Hc (new & Hp & HP)]. split; [done|]. exists new.
  split; [done|]. eapply Forall_impl; [exact HP|]. intros r. apply HPQ.
Qed.

Lemma posts_nothing P w w' :
  same_config (phabricator w) (phabricator w') → posted w' = posted w →
  posts P w w'.
Proof.
  intros Hc Hp. split; [done|]. exists []. by rewrite app_nil_r.
Qed.

Ltac preserve_step :=
  first
    [ apply preserves_ret; apply _ | apply preserves_raise; apply _
    | apply preserves_diverge; apply _
    | apply preserves_lift; apply _ | apply preserves_get; apply _
    | apply preserves_mapM; [apply _ | intros ?]
    | apply preserves_bind; [apply _ | | intros ?]
    | match goal with
      | |- preserves _ (if ?b then _ else _) => destruct b
      | |- preserves _ (match ?x with _ => _ end) => destruct x
      end ].

(** ** The query engine *)

Section Engine.
Context `{!Runtime}.

Lemma set_default_lookup (key : string) (value : json)
    (data_dict : gmap string json) (k : string) :
  set_default key value data_dict !! k
  = if decide (key = k) then Some (default value (data_dict !! key))
    else data_dict !! k.
Proof.
  unfold set_default.
  destruct (decide (is_Some (data_dict !! key))) as [[v Hv]|Hn].
  - destruct (decide (key = k)) as [<-|]; [|done]. by rewrite Hv.
  - rewrite lookup_insert. destruct (decide (key = k)) as [<-|]; [|done].
    destruct (data_dict !! key) eqn:E; [|done].
    destruct Hn. by eexists.
Qed.

Lemma prepared_lookup tok (data_dict : gmap string json) (k : string) :
  prepared tok data_dict !! k
  = if decide (k = "api.token") then
      Some (default (JStr tok) (data_dict !! "api.token"))
    else if decide (k = "limit") then
      Some (default (JNum MAX_PAGE_SIZE) (data_dict !! "limit"))
    else data_dict !! k.
Proof.
  unfold prepared. rewrite !set_default_lookup.
  destruct (decide (k = "api.token")) as [->|Hk].
  - by rewrite decide_True, decide_False.
  - rewrite decide_False by done.
    destruct (decide (k = "limit")) as [->|Hl].
    + by rewrite decide_True.
    + by rewrite decide_False.
Qed.

Lemma prepared_idem tok (data_dict : gmap string json) :
  prepared tok (prepared tok data_dict) = prepared tok data_dict.
Proof.
  apply map_eq. intros k. rewrite (prepared_lookup _ (prepared _ _)).
  rewrite !prepared_lookup.
  rewrite (decide_True (P := "api.token" = "api.token")) by done.
  rewrite (decide_False (P := "limit" = "api.token")) by done.
  rewrite (decide_True (P := "limit" = "limit")) by done.
  by repeat case_decide.
Qed.

Lemma prepared_after tok (data_dict : gmap string json) (after : json) :
  prepared tok (<["after" := after]> (prepared tok data_dict))
  = <["after" := after]> (prepared tok data_dict).
Proof.
  apply map_eq. intros k. rewrite prepared_lookup.
  destruct (decide (k = "after")) as [->|Hk].
  - rewrite decide_False, decide_False by done. done.
  - rewrite !lookup_insert_ne by done. rewrite !prepared_lookup.
    rewrite (decide_True (P := "api.token" = "api.token")) by done.
    rewrite (decide_False (P := "limit" = "api.token")) by done.
    rewrite (decide_True (P := "limit" = "limit")) by done.
    by repeat case_decide.
Qed.

(** What [_get_page] does, case by case on the server's answer. *)
Lemma get_page_unfold (u : string) (data_dict : option (gmap string json))
    (w : World) :
  _get_page u data_dict w
  = let r := page_request w u (default ∅ data_dict) in
    let w' := log_request r w in
    match requests_post (posted w) r with
    | RequestException =>
        (Raise (ReportError ("Phabricator search on " +:+ u +:+ " failed")), w')
    | HttpResponse status_code body =>
        if negb (status_code =? 200) then
          (Raise (RuntimeError
             ("Phabricator request exited with status code "
              +:+ pretty status_code +:+ " rather than 200.")), w')
        else
          match body with
          | None =>
              (Raise (ReportError "Phabricator failed to parse JSON response."), w')
          | Some decoded =>
              match py_getitem decoded "error_info" with
              | Ok error_info =>
                  if negb (is_none error_info) then
                    (Raise (RuntimeError
                       ("Phabricator error encountered: "
                        +:+ py_str error_info)), w')
                  else (Ok (decoded, req_data r), w')
              | Raise e => (Raise e, w')
              | OutOfFuel => (OutOfFuel, w')
              end
          end
    end.
Proof.
  unfold _get_page, Run.bind, Run.get, post, page_request, prepared.
  cbn [req_data].
  destruct (requests_post _ _) as [|code [decoded|]]; try reflexivity.
  - destruct (negb (code =? 200)); [reflexivity|].
    unfold Run.lift.
    destruct (py_getitem decoded "error_info") as [info| |]; try reflexivity.
    destruct (negb (is_none info)); reflexivity.
  - destruct (negb (code =? 200)); reflexivity.
Qed.

Lemma get_page_world (u : string) (data_dict : option (gmap string json))
    (w : World) :
  (_get_page u data_dict w).2
  = log_request (page_request w u (default ∅ data_dict)) w.
Proof.
  rewrite get_page_unfold. cbv zeta.
  destruct (requests_post _ _) as [|code [decoded|]]; try reflexivity.
  - destruct (negb (code =? 200)); [reflexivity|].
    destruct (py_getitem decoded "error_info") as [info| |]; try reflexivity.
    destruct (negb (is_none info)); reflexivity.
  - destruct (negb (code =? 200)); reflexivity.
Qed.

Lemma get_page_ok (u : string) (data_dict : option (gmap string json))
    (w : World) (res : json) (data_dict' : gmap string json) (w' : World) :
  _get_page u data_dict w = (Ok (res, data_dict'), w') →
  data_dict' = prepared (token (phabricator w)) (default ∅ data_dict)
  ∧ w' = log_request (page_request w u (default ∅ data_dict)) w
  ∧ requests_post (posted w) (page_request w u (default ∅ data_dict))
    = HttpResponse 200 (Some res)
  ∧ py_getitem res "error_info" = Ok JNull.
Proof.
  rewrite get_page_unfold. cbv zeta.
  destruct (requests_post _ _) as [|code [decoded|]]; try discriminate.
  - destruct (Z.eqb_spec code 200) as [->|]; [|discriminate]. cbn [negb].
    destruct (py_getitem decoded "error_info") as [info| |] eqn:E;
      try discriminate.
    destruct info; try discriminate. cbn [is_none negb].
    intros [= <- <- <-]. done.
  - destruct (negb (code =? 200)); discriminate.
Qed.

Lemma get_page_posts (u : string) (data_dict : gmap string json) :
  preserves (posts (page_of u data_dict)) (_get_page u (Some data_dict)).
Proof.
  intros w. rewrite get_page_world. split; [done|].
  eexists [_]. split; [reflexivity|]. constructor; [|constructor].
  split; done.
Qed.

Lemma get_page_keeps_stats (u : string) data_dict :
  preserves keeps_stats (_get_page u data_dict).
Proof. intros w. rewrite get_page_world. done. Qed.
End Engine.

Section Pagination.
Context `{!Runtime}.

(** One turn of the loop. *)
Lemma get_all_pages_loop_step (fuel : nat) (u : string)
    (data_dict : gmap string json) (results : list json) (w : World) :
  _get_all_pages_loop (S fuel) u data_dict results w
  = match _get_page u (Some data_dict) w with
    | (Ok (res, data_dict'), w') =>
        match read_page res with
        | Ok (items, None) => (Ok (results ++ items), w')
        | Ok (items, Some after) =>
            if is_none after then (Ok (results ++ items), w')
            else _get_all_pages_loop fuel u (<["after" := after]> data_dict')
                   (results ++ items) w'
        | Raise e => (Raise e, w')
        | OutOfFuel => (OutOfFuel, w')
        end
    | (Raise e, w') => (Raise e, w')
    | (OutOfFuel, w') => (OutOfFuel, w')
    end.
Proof.
  cbn [_get_all_pages_loop]. unfold Run.bind at 1.
  destruct (_get_page u (Some data_dict) w) as [[[res data_dict']|e|] w'];
    try reflexivity.
  unfold read_page, Run.bind, Run.lift, Run.raise, Run.ret. cbn [fst snd].
  destruct (py_in "result" res) as [[]| |]; cbn [Res.bind negb]; try reflexivity.
  destruct (py_getitem res "result") as [result_| |]; cbn [Res.bind];
    try reflexivity.
  destruct (py_getitem result_ "data") as [data| |]; cbn [Res.bind];
    try reflexivity.
  destruct (py_iter data) as [items| |]; cbn [Res.bind]; try reflexivity.
  destruct (py_in "cursor" res) as [[]| |]; cbn [Res.bind]; try reflexivity.
  destruct (py_getitem res "cursor") as [cursor| |]; cbn [Res.bind];
    try reflexivity.
  destruct (py_getitem cursor "after") as [after| |]; cbn [Res.bind];
    try reflexivity.
  destruct (is_none after); reflexivity.
Qed.

Lemma posts_step (P Q : string → string → Request → Prop) (w w1 w2 : World) :
  posts Q w w1 → posts P w1 w2 →
  (∀ r, P (url (phabricator w1)) (token (phabricator w1)) r
        → Q (url (phabricator w)) (token (phabricator w)) r) →
  posts Q w w2.
Proof.
  intros H1 [Hc (new & Hp & HP)] HPQ. etrans; [exact H1|].
  destruct H1 as [(Hu & Ht & Hl) _].
  split; [done|]. exists new. split; [done|].
  rewrite Hu, Ht. eapply Forall_impl; [exact HP|]. exact HPQ.
Qed.

Lemma get_all_pages_loop_posts (fuel : nat) (u : string)
    (data_dict : gmap string json) (results : list json) :
  preserves (posts (page_of u data_dict))
    (_get_all_pages_loop fuel u data_dict results).
Proof.
  revert data_dict results.
  induction fuel as [|fuel IH]; intros data_dict results w.
  { simpl. reflexivity. }
  rewrite get_all_pages_loop_step.
  pose proof (get_page_posts u data_dict w) as Hpage.
  destruct (_get_page u (Some data_dict) w) as [[[res data_dict']|e|] w'] eqn:Hp;
    cbn [snd] in *; try exact Hpage.
  apply get_page_ok in Hp as (-> & Hw' & _). cbn [default] in *.
  destruct (read_page res) as [[items [after|]]| |]; cbn [snd]; try exact Hpage.
  destruct (is_none after); [exact Hpage|].
  eapply posts_step; [exact Hpage|apply IH|].
  intros r [Hurl Hdata]. split; [done|]. intros k Hk.
  rewrite (Hdata k Hk). subst w'. cbn [log_request phabricator].
  rewrite prepared_after. by rewrite lookup_insert_ne.
Qed.

Lemma get_all_pages_loop_keeps_stats (fuel : nat) (u : string)
    (data_dict : gmap string json) (results : list json) :
  preserves keeps_stats (_get_all_pages_loop fuel u data_dict results).
Proof.
  revert data_dict results.
  induction fuel as [|fuel IH]; intros data_dict results w.
  { simpl. reflexivity. }
  rewrite get_all_pages_loop_step.
  pose proof (get_page_keeps_stats u (Some data_dict) w) as Hpage.
  destruct (_get_page u (Some data_dict) w) as [[[res data_dict']|e|] w'];
    cbn [snd] in *; try exact Hpage.
  destruct (read_page res) as [[items [after|]]| |]; cbn [snd]; try exact Hpage.
  destruct (is_none after); [exact Hpage|].
  etrans; [exact Hpage|apply IH].
Qed.

(** The requests of [_get_all_pages]: the caller's mapping with the
    two defaults; the cursor key apart. *)
Lemma get_all_pages_posts (fuel : nat) (u : string)
    (data_dict : gmap string json) :
  preserves (posts (page_of u data_dict))
    (_get_all_pages fuel u (Some data_dict)).
Proof.
  intros w. unfold _get_all_pages. cbn [default].
  eapply posts_weaken; [|apply get_all_pages_loop_posts].
  intros u' tok r [Hurl Hdata]. split; [done|]. intros k Hk.
  rewrite (Hdata k Hk), !prepared_lookup.
  rewrite !lookup_insert_ne by done. done.
Qed.

Lemma get_all_pages_keeps_stats (fuel : nat) (u : string) data_dict :
  preserves keeps_stats (_get_all_pages fuel u data_dict).
Proof. apply get_all_pages_loop_keeps_stats. Qed.
End Pagination.

Section PageSequences.
Context `{!Runtime}.

Lemma getitem_in (v : json) (key : string) (x : json) :
  py_getitem v key = Ok x → py_in key v = Ok true.
Proof.
  destruct v; try discriminate. simpl.
  destruct (assoc key fields) eqn:E; [|discriminate]. intros _.
  by rewrite bool_decide_eq_true_2.
Qed.

Lemma read_page_last (res : json) (records : list json) :
  page_records res records → last_page res →
  read_page res = Ok (records, None) ∨ read_page res = Ok (records, Some JNull).
Proof.
  intros (_ & result_ & Hres & Hdata) Hlast. unfold read_page.
  rewrite (getitem_in _ _ _ Hres). cbn [Res.bind negb].
  rewrite Hres. cbn [Res.bind]. rewrite Hdata. cbn [Res.bind py_iter].
  destruct Hlast as [Hno|(cursor & Hcur & Hafter)].
  - rewrite Hno. by left.
  - rewrite (getitem_in _ _ _ Hcur). cbn [Res.bind].
    rewrite Hcur. cbn [Res.bind]. rewrite Hafter. by right.
Qed.

Lemma read_page_next (res : json) (records : list json) (after : json) :
  page_records res records → next_page res after →
  read_page res = Ok (records, Some after).
Proof.
  intros (_ & result_ & Hres & Hdata) (cursor & Hcur & Hafter & _).
  unfold read_page.
  rewrite (getitem_in _ _ _ Hres). cbn [Res.bind negb].
  rewrite Hres. cbn [Res.bind]. rewrite Hdata. cbn [Res.bind py_iter].
  rewrite (getitem_in _ _ _ Hcur). cbn [Res.bind].
  rewrite Hcur. cbn [Res.bind]. by rewrite Hafter.
Qed.

Lemma get_page_served (u : string) (data_dict : gmap string json)
    (w : World) (res : json) (records : list json) :
  requests_post (posted w) (page_request w u data_dict)
  = HttpResponse 200 (Some res) →
  page_records res records →
  _get_page u (Some data_dict) w
  = (Ok (res, prepared (token (phabricator w)) data_dict),
     log_request (page_request w u data_dict) w).
Proof.
  intros Hpost (Hinfo & _). rewrite get_page_unfold.
  change (default ∅ (Some data_dict)) with data_dict.
  cbv zeta. rewrite Hpost. cbn [Z.eqb Pos.eqb negb]. by rewrite Hinfo.
Qed.

Lemma get_all_pages_loop_serves (u tok : string) (before : list Request)
    (data_dict : gmap string json) (pages : list (list json)) :
  serves u tok before data_dict pages →
  ∀ (fuel : nat) (w : World) (results : list json),
    posted w = before → token (phabricator w) = tok →
    (length pages ≤ fuel)%nat →
    ∃ w', _get_all_pages_loop fuel u data_dict results w
          = (Ok (results ++ concat pages), w')
          ∧ length (posted w') = (length (posted w) + length pages)%nat
          ∧ phabricator w' = phabricator w.
Proof.
  induction 1 as [before data_dict res records Hpost Hrec Hlast
                 |before data_dict res records after pages Hpost Hrec Hnext _ IH];
    intros fuel w results Hbefore Htok Hfuel;
    (destruct fuel as [|fuel]; [simpl in Hfuel; lia|]);
    rewrite get_all_pages_loop_step;
    subst before tok;
    rewrite (get_page_served u data_dict w res records Hpost Hrec).
  - eexists. cbn [concat]. rewrite app_nil_r.
    destruct (read_page_last res records Hrec Hlast) as [-> | ->];
      cbn [is_none]; (split; [reflexivity|]);
      cbn [log_request posted phabricator]; rewrite length_app; done.
  - rewrite (read_page_next res records after Hrec Hnext).
    destruct Hnext as (_ & _ & _ & Hnn).
    assert (is_none after = false) as -> by (by destruct after).
    destruct (IH fuel (log_request (page_request w u data_dict) w)
                (results ++ records))
      as (w' & Hrun & Hlen & Hph); [done|done|simpl in Hfuel; lia|].
    exists w'. rewrite Hrun. cbn [concat]. rewrite app_assoc.
    split; [done|]. split; [|done]. rewrite Hlen.
    cbn [log_request posted]. rewrite length_app. simpl. lia.
Qed.

(** C1: when the server answers the fetch with a finite page sequence
    (each page with a results container, each but the last pointing
    to the next, the last with a null ["after"] or with no cursor
    container), [_get_all_pages] returns, for every fuel that covers
    the pages, the concatenation of the pages' record lists: the sum
    of the page sizes, in page order, after one request per page.  A
    first page without cursor container ends the fetch after that one
    request. *)
Theorem get_all_pages_concat (u : string)
    (data_dict : option (gmap string json)) (w : World)
    (pages : list (list json)) (fuel : nat) :
  serves u (token (phabricator w)) (posted w)
    (<["after" := JNull]> (default ∅ data_dict)) pages →
  (length pages ≤ fuel)%nat →
  (∃ w', _get_all_pages fuel u data_dict w = (Ok (concat pages), w')
         ∧ length (concat pages) = sum_list (length <$> pages)
         ∧ length (posted w') = (length (posted w) + length pages)%nat
         ∧ phabricator w' = phabricator w)
  ∧ (∀ res records,
       requests_post (posted w)
         (page_request w u (<["after" := JNull]> (default ∅ data_dict)))
       = HttpResponse 200 (Some res) →
       page_records res records →
       py_in "cursor" res = Ok false →
       ∃ w', _get_all_pages (S fuel) u data_dict w = (Ok records, w')
             ∧ length (posted w') = S (length (posted w))).
Proof.
  intros Hserves Hfuel. split.
  - destruct (get_all_pages_loop_serves _ _ _ _ _ Hserves fuel w [])
      as (w' & Hrun & Hlen & Hph); [done..|].
    exists w'. split; [exact Hrun|]. split; [|done].
    clear. induction pages as [|p pages IH]; [done|].
    cbn [concat fmap list_fmap sum_list sum_list_with].
    rewrite length_app. by rewrite IH.
  - intros res records Hpost Hrec Hno.
    destruct (get_all_pages_loop_serves u (token (phabricator w)) (posted w)
                (<["after" := JNull]> (default ∅ data_dict)) [records]
                (serves_last _ _ _ _ _ _ Hpost Hrec (or_introl Hno))
                (S fuel) w [])
      as (w' & Hrun & Hlen & _); [done|done|simpl; lia|].
    exists w'. cbn [concat] in Hrun. rewrite app_nil_r in Hrun.
    split; [exact Hrun|]. rewrite Hlen. simpl. lia.
Qed.
End PageSequences.

(** ** Constraint keys *)

Section Keys.
Lemma append_inj_r (s t1 t2 : string) : s +:+ t1 = s +:+ t2 → t1 = t2.
Proof. induction s as [|a s IH]; simpl; [done|]. intros [= ?]. auto. Qed.

Lemma append_bracket_inj (s1 s2 : string) : s1 +:+ "]" = s2 +:+ "]" → s1 = s2.
Proof.
  revert s2. induction s1 as [|a s1 IH]; intros [|b s2]; simpl; try done.
  - intros [= _ H]. by destruct s2.
  - intros [= _ H]. by destruct s1.
  - intros [= -> H]. f_equal. by apply IH.
Qed.

Lemma indexed_key_inj (family : string) (i j : nat) :
  indexed_key family i = indexed_key family j → i = j.
Proof.
  unfold indexed_key. intros H.
  apply append_inj_r in H. simpl in H. injection H as H.
  apply append_bracket_inj in H. by apply (inj pretty) in H.
Qed.

Lemma set_indexed_lookup_ne (family : string) (idx : nat)
    (phids : list json) (data_dict : gmap string json) (k : string) :
  (∀ i, indexed_key family i ≠ k) →
  set_indexed family idx phids data_dict !! k = data_dict !! k.
Proof.
  intros Hk. revert idx data_dict.
  induction phids as [|login phids IH]; intros idx data_dict; simpl; [done|].
  rewrite IH. by rewrite lookup_insert_ne.
Qed.

(** After the loop, the key of position [i] holds the [i]-th value;
    keys of the family outside the positions are as before. *)
Lemma set_indexed_lookup (family : string) (idx : nat)
    (phids : list json) (data_dict : gmap string json) (j : nat) :
  set_indexed family idx phids data_dict !! indexed_key family j
  = if decide (idx ≤ j < idx + length phids)%nat then phids !! (j - idx)%nat
    else data_dict !! indexed_key family j.
Proof.
  revert idx data_dict.
  induction phids as [|login phids IH]; intros idx data_dict; simpl.
  { rewrite decide_False by lia. done. }
  rewrite IH. destruct (decide (S idx ≤ j < S idx + length phids)%nat).
  - rewrite decide_True by lia.
    replace (j - idx)%nat with (S (j - S idx)) by lia. done.
  - destruct (decide (j = idx)) as [->|Hne].
    + rewrite decide_True by lia. rewrite lookup_insert_eq.
      by rewrite Nat.sub_diag.
    + rewrite decide_False by lia. rewrite lookup_insert_ne; [done|].
      intros Heq. by apply indexed_key_inj in Heq.
Qed.

(** The keys the loop writes are the keys of the family. *)
Lemma set_indexed_dom (family : string) (idx : nat) (phids : list json)
    (data_dict : gmap string json) (k : string) (v : json) :
  set_indexed family idx phids data_dict !! k = Some v →
  (∃ i, k = indexed_key family i) ∨ data_dict !! k = Some v.
Proof.
  revert idx data_dict.
  induction phids as [|login phids IH]; intros idx data_dict; simpl; [auto|].
  intros H. apply IH in H as [?|H]; [auto|].
  rewrite lookup_insert in H. case_decide; [|auto]. left. eauto.
Qed.
End Keys.

(** No key of a [constraints[...]] family is [limit], [api.token] or
    one of the scalar constraint keys. *)
Ltac key_ne :=
  let H := fresh in
  intros; unfold indexed_key; cbn [String.append]; intros H;
  discriminate H.

(** ** Requests of the Investigator's operations *)

Section Requests.
Context `{!Runtime}.

Lemma page_of_carries (u : string) (data_dict : gmap string json) :
  data_dict !! "limit" = None → data_dict !! "api.token" = None →
  ∀ u' tok r, page_of u data_dict u' tok r → carries_defaults u' tok r.
Proof.
  intros Hl Ht u' tok r [_ Hdata]. split.
  - rewrite Hdata by done. rewrite prepared_lookup.
    rewrite decide_True by done. by rewrite Ht.
  - rewrite Hdata by done. rewrite prepared_lookup.
    rewrite decide_False by done. rewrite decide_True by done. by rewrite Hl.
Qed.

Lemma modify_posts P (f : World → World) :
  (∀ w, same_config (phabricator w) (phabricator (f w))) →
  (∀ w, posted (f w) = posted w) →
  preserves (posts P) (Run.modify f).
Proof. intros Hc Hp w. apply posts_nothing; simpl; auto. Qed.

Lemma new_id_posts P : preserves (posts P) new_id.
Proof. intros w. by apply posts_nothing. Qed.

Lemma print_posts P line : preserves (posts P) (print line).
Proof. by apply modify_posts. Qed.

Lemma login_phids_data_dict (names : list string) (k : string) :
  (∀ i, indexed_key "constraints[usernames]" i ≠ k) →
  set_indexed "constraints[usernames]" 0 (JStr <$> names) ∅ !! k = None.
Proof. intros Hk. by rewrite set_indexed_lookup_ne. Qed.

Lemma get_bind {A} (k : World → M A) (w : World) :
  Run.bind Run.get k w = k w w.
Proof. reflexivity. Qed.

Lemma posts_at (P Q : string → string → Request → Prop) (w w' : World) :
  posts Q w w' →
  (∀ r, Q (url (phabricator w)) (token (phabricator w)) r
        → P (url (phabricator w)) (token (phabricator w)) r) →
  posts P w w'.
Proof.
  intros [Hc (new & Hp & HQ)] HQP. split; [done|]. exists new.
  split; [done|]. eapply Forall_impl; [exact HQ|]. exact HQP.
Qed.

(** A paginated fetch of a mapping without [limit] and [api.token]. *)
Lemma get_all_pages_carries (fuel : nat) (u : string)
    (data_dict : gmap string json) :
  data_dict !! "limit" = None → data_dict !! "api.token" = None →
  preserves (posts (λ u' tok r, req_url r = u ∧ carries_defaults u' tok r))
    (_get_all_pages fuel u (Some data_dict)).
Proof.
  intros Hl Ht. eapply preserves_weaken; [|apply get_all_pages_posts].
  intros w1 w2. apply posts_weaken. intros u' tok r Hr. split.
  - by destruct Hr.
  - by eapply page_of_carries.
Qed.

Lemma login_phids_posts (fuel : nat) :
  preserves (posts user_search) (login_phids fuel).
Proof.
  intros w. unfold login_phids. rewrite get_bind.
  eapply (posts_at _
    (λ u' tok r, req_url r = url (phabricator w) +:+ "/user.search"
                 ∧ carries_defaults u' tok r)); [|done].
  destruct (_login_phids (phabricator w)) as [[|phid cached]|];
    [|reflexivity|].
  all: generalize (url (phabricator w)) (logins (phabricator w));
    intros u0 names; revert w.
  all: apply preserves_bind; [apply _| |intros results].
  all: try (apply get_all_pages_carries; apply login_phids_data_dict; key_ne).
  all: apply preserves_bind; [apply _|apply preserves_lift, _|intros phids].
  all: apply preserves_bind; [apply _| |intros _; apply preserves_ret, _].
  all: by apply modify_posts.
Qed.

Lemma search_diffs_data_dict_other (since until : option date)
    (author_phids reviewer_phids : option (list json)) (k : string) :
  (∀ i, indexed_key "constraints[authorPHIDs]" i ≠ k) →
  k ≠ "constraints[createdStart]" → k ≠ "constraints[createdEnd]" →
  search_diffs_data_dict since until author_phids reviewer_phids !! k = None.
Proof.
  intros Hk Hs He. unfold search_diffs_data_dict.
  destruct until; [rewrite lookup_insert_ne by done|];
    (destruct since; [rewrite lookup_insert_ne by done|]);
    (destruct reviewer_phids; [rewrite set_indexed_lookup_ne by done|]);
    (destruct author_phids; [rewrite set_indexed_lookup_ne by done|]);
    done.
Qed.

Lemma search_diffs_posts (fuel : nat) (verbose : bool)
    (since until : option date)
    (author_phids reviewer_phids : option (list json)) :
  preserves (posts carries_defaults)
    (search_diffs fuel verbose since until author_phids reviewer_phids).
Proof.
  unfold search_diffs.
  apply preserves_bind; [apply _|apply preserves_get, _|]. intros w.
  apply preserves_bind; [apply _| |intros diffs].
  - eapply preserves_weaken; [|apply get_all_pages_posts].
    intros w1 w2. apply posts_weaken, page_of_carries;
      apply search_diffs_data_dict_other; first [done | key_ne].
  - apply preserves_mapM; [apply _|]. intros diff.
    apply preserves_bind; [apply _|apply new_id_posts|].
    intros self. apply preserves_lift, _.
Qed.

Lemma search_transactions_data_dict (diff_phid : json)
    (author_phids : option (list json)) (k : string) :
  (∀ i, indexed_key "constraints[authorPHIDs]" i ≠ k) →
  k ≠ "objectIdentifier" →
  match author_phids with
  | Some phids =>
      set_indexed "constraints[authorPHIDs]" 0 phids
        (<["objectIdentifier" := diff_phid]> ∅)
  | None => <["objectIdentifier" := diff_phid]> ∅
  end !! k = None.
Proof.
  intros Hk Ho.
  destruct author_phids; [rewrite set_indexed_lookup_ne by done|];
    by rewrite lookup_insert_ne.
Qed.

Lemma search_transactions_posts (fuel : nat) (diff_phid : json)
    (author_phids : option (list json)) :
  preserves (posts carries_defaults)
    (search_transactions fuel diff_phid author_phids).
Proof.
  unfold search_transactions.
  apply preserves_bind; [apply _|apply preserves_get, _|]. intros w.
  apply preserves_bind; [apply _| |intros events; apply preserves_lift, _].
  eapply preserves_weaken; [|apply get_all_pages_posts].
  intros w1 w2. apply posts_weaken, page_of_carries;
    apply search_transactions_data_dict; first [key_ne | done].
Qed.
End Requests.

Section StatsKept.
Context `{!Runtime}.

Lemma modify_keeps_stats (f : World → World) :
  (∀ w, keeps_stats w (f w)) → preserves keeps_stats (Run.modify f).
Proof. intros Hf w. apply Hf. Qed.

Lemma new_id_keeps_stats : preserves keeps_stats new_id.
Proof. by intros w. Qed.

Lemma print_keeps_stats line : preserves keeps_stats (print line).
Proof. by intros w. Qed.

Lemma login_phids_keeps_stats (fuel : nat) :
  preserves keeps_stats (login_phids fuel).
Proof.
  unfold login_phids.
  repeat first [ apply get_all_pages_keeps_stats
               | apply modify_keeps_stats; by intros ?
               | preserve_step ].
Qed.

Lemma search_diffs_keeps_stats (fuel : nat) (verbose : bool)
    (since until : option date)
    (author_phids reviewer_phids : option (list json)) :
  preserves keeps_stats
    (search_diffs fuel verbose since until author_phids reviewer_phids).
Proof.
  unfold search_diffs.
  repeat first [ apply get_all_pages_keeps_stats
               | apply new_id_keeps_stats
               | preserve_step ].
Qed.

Lemma search_transactions_keeps_stats (fuel : nat) (diff_phid : json)
    (author_phids : option (list json)) :
  preserves keeps_stats (search_transactions fuel diff_phid author_phids).
Proof.
  unfold search_transactions.
  repeat first [ apply get_all_pages_keeps_stats | preserve_step ].
Qed.
End StatsKept.

Section FetchRequests.
Context `{!Runtime}.

Lemma for_events_posts P (options : Options) (diff : Differential.t)
    (events : list TransactionEvent.t)
    (commented_diffs closed_diffs : list Differential.t) :
  preserves (posts P)
    (for_events options diff events commented_diffs closed_diffs).
Proof.
  revert commented_diffs closed_diffs.
  induction events as [|event events IH]; intros commented_diffs closed_diffs;
    cbn [for_events].
  - apply preserves_ret, _.
  - repeat first [ apply IH | apply print_posts | preserve_step ].
Qed.

Lemma for_diffs_posts (fuel : nat) (options : Options)
    (diffs commented_diffs closed_diffs : list Differential.t) :
  preserves (posts carries_defaults)
    (for_diffs fuel options diffs commented_diffs closed_diffs).
Proof.
  revert commented_diffs closed_diffs.
  induction diffs as [|diff diffs IH]; intros commented_diffs closed_diffs;
    cbn [for_diffs].
  - apply preserves_ret, _.
  - repeat first
      [ apply IH | apply for_events_posts | apply search_transactions_posts
      | (eapply preserves_weaken; [|apply login_phids_posts];
         intros ? ?; apply posts_weaken; by intros ? ? ? [_ ?])
      | preserve_step ].
Qed.

Lemma commented_fetch_posts (fuel : nat) (options : Options) :
  preserves (posts carries_defaults) (DifferentialsCommented_fetch fuel options).
Proof.
  unfold DifferentialsCommented_fetch.
  repeat first
    [ apply for_diffs_posts | apply search_diffs_posts
    | (eapply preserves_weaken; [|apply login_phids_posts];
       intros ? ?; apply posts_weaken; by intros ? ? ? [_ ?])
    | by apply modify_posts
    | preserve_step ].
Qed.

Lemma bind_keywords_data_dict :
  bind_keywords "search_diffs" search_diffs_parameters ["data_dict"; "verbose"]
  = Raise (TypeError
      "search_diffs() got an unexpected keyword argument 'data_dict'").
Proof. vm_compute. reflexivity. Qed.

Lemma created_fetch_posts (fuel : nat) (options : Options) :
  preserves (posts user_search) (DifferentialsCreated_fetch fuel options).
Proof.
  unfold DifferentialsCreated_fetch.
  apply preserves_bind; [apply _|apply login_phids_posts|]. intros phids.
  apply preserves_bind; [apply _|apply preserves_lift, _|]. intros s1.
  apply preserves_bind; [apply _|apply preserves_lift, _|]. intros s2.
  rewrite bind_keywords_data_dict. intros w. by apply posts_nothing.
Qed.

Lemma reviewed_fetch_posts (fuel : nat) (options : Options) :
  preserves (posts user_search) (DifferentialsReviewed_fetch fuel options).
Proof.
  unfold DifferentialsReviewed_fetch.
  apply preserves_bind; [apply _|apply login_phids_posts|]. intros phids.
  apply preserves_bind; [apply _|apply preserves_lift, _|]. intros s1.
  apply preserves_bind; [apply _|apply preserves_lift, _|]. intros s2.
  rewrite bind_keywords_data_dict. intros w. by apply posts_nothing.
Qed.
End FetchRequests.

(** ** Single-page fetch: API errors, and what every request carries *)

Section SinglePage.
Context `{!Runtime}.

(** C6: when the server answers a page request with status 200 and a
    body that decodes to a value whose [error_info] is not null,
    [_get_page] raises the remote API error whose message carries the
    server's description, and returns no page; a paginated fetch that
    meets such a page raises the same error and returns no records. *)
Theorem get_page_error_info (u : string)
    (data_dict : option (gmap string json)) (w : World) (res info : json) :
  requests_post (posted w) (page_request w u (default ∅ data_dict))
  = HttpResponse 200 (Some res) →
  py_getitem res "error_info" = Ok info →
  info ≠ JNull →
  (_get_page u data_dict w).1
  = Raise (RuntimeError ("Phabricator error encountered: " +:+ py_str info))
  ∧ (∀ description, info = JStr description →
       (_get_page u data_dict w).1
       = Raise (RuntimeError ("Phabricator error encountered: " +:+ description)))
  ∧ (∀ fuel results,
       (_get_all_pages_loop (S fuel) u (default ∅ data_dict) results w).1
       = Raise (RuntimeError ("Phabricator error encountered: " +:+ py_str info))).
Proof.
  intros Hpost Hinfo Hnn.
  assert (Hnone : negb (is_none info) = true) by (by destruct info).
  assert (Hpage : ∀ dd, default ∅ dd = default ∅ data_dict →
    (_get_page u dd w).1
    = Raise (RuntimeError ("Phabricator error encountered: " +:+ py_str info))).
  { intros dd Hdd. rewrite get_page_unfold. cbv zeta. rewrite Hdd, Hpost.
    cbn [Z.eqb Pos.eqb negb]. rewrite Hinfo, Hnone. reflexivity. }
  split; [by apply Hpage|]. split.
  - intros description ->. by apply Hpage.
  - intros fuel results. rewrite get_all_pages_loop_step.
    specialize (Hpage (Some (default ∅ data_dict)) eq_refl).
    destruct (_get_page u (Some (default ∅ data_dict)) w) as [[[? ?]|e|] w'];
      simpl in Hpage; try discriminate. by injection Hpage as ->.
Qed.

(** C9, as the code has it: every call of [_get_page] posts exactly
    one request, whose mapping has an [api.token] entry (the
    configured token unless the caller set one) and a [limit] entry
    (the maximum page size 100 unless the caller set one; a limit the
    caller set is sent as it is).  Every request the Investigator's
    operations and the three report assemblers issue carries the
    configured token and the limit 100. *)
Theorem requests_carry_token_and_limit :
  (∀ u data_dict w,
     let r := page_request w u (default ∅ data_dict) in
     posted (_get_page u data_dict w).2 = posted w ++ [r]
     ∧ req_data r !! "api.token"
       = Some (default (JStr (token (phabricator w)))
                 (default ∅ data_dict !! "api.token"))
     ∧ req_data r !! "limit"
       = Some (default (JNum MAX_PAGE_SIZE) (default ∅ data_dict !! "limit")))
  ∧ (∀ fuel, preserves (posts carries_defaults) (login_phids fuel))
  ∧ (∀ fuel verbose since until author_phids reviewer_phids,
       preserves (posts carries_defaults)
         (search_diffs fuel verbose since until author_phids reviewer_phids))
  ∧ (∀ fuel diff_phid author_phids,
       preserves (posts carries_defaults)
         (search_transactions fuel diff_phid author_phids))
  ∧ (∀ fuel options,
       preserves (posts carries_defaults) (DifferentialsCommented_fetch fuel options)
       ∧ preserves (posts carries_defaults) (DifferentialsCreated_fetch fuel options)
       ∧ preserves (posts carries_defaults) (DifferentialsReviewed_fetch fuel options)).
Proof.
  assert (Hweak : ∀ A (m : M A),
    preserves (posts user_search) m → preserves (posts carries_defaults) m).
  { intros A m. apply preserves_weaken. intros w w'.
    apply posts_weaken. by intros ? ? ? [_ ?]. }
  split; [|split; [|split; [|split]]].
  - intros u data_dict w. cbv zeta. rewrite get_page_world.
    split; [reflexivity|]. unfold page_request. cbn [req_data].
    rewrite !prepared_lookup.
    rewrite decide_True by done.
    rewrite decide_False by done. by rewrite decide_True by done.
  - intros fuel. apply Hweak, login_phids_posts.
  - intros. apply search_diffs_posts.
  - intros. apply search_transactions_posts.
  - intros fuel options. split; [apply commented_fetch_posts|].
    split; apply Hweak; [apply created_fetch_posts|apply reviewed_fetch_posts].
Qed.
End SinglePage.

(** C9, as stated, fails on a call of [_get_page] whose caller set a
    limit above the maximum page size: the limit is sent unchanged. *)
Lemma get_page_limit_not_clamped :
  let rt := scripted [ok_page [] None] in
  let w' := (_get_page "u" (Some {["limit" := JNum 1000]}) world0).2 in
  ∃ r, posted w' = [r]
       ∧ req_data r !! "limit" = Some (JNum 1000)
       ∧ ¬ (1000 ≤ MAX_PAGE_SIZE).
Proof.
  cbv zeta. eexists. split; [vm_compute; reflexivity|].
  split; [vm_compute; reflexivity|unfold MAX_PAGE_SIZE; lia].
Qed.

(** ** Constraint encoding of the differential search *)

Section SearchDiffs.
Context `{!Runtime}.

(** The requests of [search_diffs] go to the differential search and
    carry the mapping it built. *)
Lemma search_diffs_requests (fuel : nat) (verbose : bool)
    (since until : option date)
    (author_phids reviewer_phids : option (list json)) (w : World) :
  posts (λ u tok r,
           req_url r = u +:+ "/differential.revision.search"
           ∧ ∀ k, k ≠ "after" →
               req_data r !! k
               = prepared tok
                   (search_diffs_data_dict since until author_phids
                      reviewer_phids) !! k)
    w (search_diffs fuel verbose since until author_phids reviewer_phids w).2.
Proof.
  unfold search_diffs. rewrite get_bind.
  eapply (posts_at _
    (page_of (url (phabricator w) +:+ "/differential.revision.search")
       (search_diffs_data_dict since until author_phids reviewer_phids)));
    [|done].
  generalize (url (phabricator w)). intros u0. revert w.
  apply preserves_bind; [apply _|apply get_all_pages_posts|]. intros diffs.
  apply preserves_mapM; [apply _|]. intros diff.
  apply preserves_bind; [apply _|apply new_id_posts|].
  intros self. apply preserves_lift, _.
Qed.

(** C4: with a non-empty reviewer list, the mapping [search_diffs]
    builds holds the [i]-th reviewer identifier under
    [constraints[authorPHIDs][i]], for every position [i] from 0 on;
    every key of the mapping is an author-identifier key or one of
    the two creation-date keys, and no
    [constraints[reviewerPHIDs][i]] key is set.  Every request the
    search posts carries the reviewer identifiers under these
    author-identifier keys. *)
Theorem search_diffs_reviewers_under_author_keys
    (since until : option date) (author_phids : option (list json))
    (reviewer_phids : list json) :
  reviewer_phids ≠ [] →
  let data_dict :=
    search_diffs_data_dict since until author_phids (Some reviewer_phids) in
  (∀ (i : nat) phid,
     reviewer_phids !! i = Some phid →
     data_dict !! indexed_key "constraints[authorPHIDs]" i = Some phid)
  ∧ is_Some (data_dict !! "constraints[authorPHIDs][0]")
  ∧ (∀ k v,
       data_dict !! k = Some v →
       (∃ i, k = indexed_key "constraints[authorPHIDs]" i)
       ∨ k = "constraints[createdStart]" ∨ k = "constraints[createdEnd]")
  ∧ (∀ i, data_dict !! indexed_key "constraints[reviewerPHIDs]" i = None)
  ∧ (∀ fuel verbose w,
       ∃ new,
         posted (search_diffs fuel verbose since until author_phids
                   (Some reviewer_phids) w).2 = posted w ++ new
         ∧ Forall (λ r, ∀ (i : nat) phid,
                     reviewer_phids !! i = Some phid →
                     req_data r !! indexed_key "constraints[authorPHIDs]" i
                     = Some phid) new).
Proof.
  intros Hne data_dict.
  assert (Hpos : ∀ (i : nat) phid,
    reviewer_phids !! i = Some phid →
    data_dict !! indexed_key "constraints[authorPHIDs]" i = Some phid).
  { intros i phid Hi. subst data_dict. unfold search_diffs_data_dict.
    pose proof (lookup_lt_Some _ _ _ Hi) as Hlt.
    destruct until; [rewrite lookup_insert_ne by key_ne|];
      (destruct since; [rewrite lookup_insert_ne by key_ne|]);
      rewrite set_indexed_lookup, decide_True by lia;
      by rewrite Nat.sub_0_r. }
  assert (Hdom : ∀ k v,
    data_dict !! k = Some v →
    (∃ i, k = indexed_key "constraints[authorPHIDs]" i)
    ∨ k = "constraints[createdStart]" ∨ k = "constraints[createdEnd]").
  { intros k v. subst data_dict. unfold search_diffs_data_dict.
    destruct until; [rewrite lookup_insert; case_decide; [auto|]|];
      (destruct since; [rewrite lookup_insert; case_decide; [auto|]|]);
      intros Hk; apply set_indexed_dom in Hk as [?|Hk]; auto;
      (destruct author_phids;
       [apply set_indexed_dom in Hk as [?|Hk]; auto|]);
      by rewrite lookup_empty in Hk. }
  split; [exact Hpos|]. split; [|split; [exact Hdom|split]].
  - destruct reviewer_phids as [|phid rest]; [done|].
    exists phid. by apply (Hpos 0%nat).
  - intros i. destruct (data_dict !! _) as [v|] eqn:E; [|done].
    apply Hdom in E as [[j E]|[E|E]];
      unfold indexed_key in E; cbn [String.append] in E; discriminate E.
  - intros fuel verbose w.
    destruct (search_diffs_requests fuel verbose since until author_phids
                (Some reviewer_phids) w) as [_ (new & Hp & Hnew)].
    exists new. split; [exact Hp|].
    eapply Forall_impl; [exact Hnew|]. intros r [_ Hr] i phid Hi.
    rewrite Hr by key_ne. rewrite prepared_lookup.
    rewrite decide_False by key_ne. rewrite decide_False by key_ne.
    by apply Hpos.
Qed.
End SearchDiffs.

(** ** Resolution of the login identifiers *)

Section LoginPhids.
Context `{!Runtime}.

Lemma bind_posted_extends {A B} P (m : M A) (k : A → M B) (w : World) :
  (∀ a, preserves (posts P) (k a)) →
  ∃ new, posted (Run.bind m k w).2 = posted (m w).2 ++ new.
Proof.
  intros Hk. unfold Run.bind.
  destruct (m w) as [[a|e|] w']; cbn [snd];
    [|exists []; by rewrite app_nil_r..].
  destruct (Hk a w') as [_ (new & Hp & _)]. eauto.
Qed.

(** A paginated fetch with fuel posts its first request, whatever
    follows. *)
Lemma get_all_pages_first_request (fuel : nat) (u : string)
    (data_dict : option (gmap string json)) (w : World) :
  ∃ rest,
    posted (_get_all_pages (S fuel) u data_dict w).2
    = posted w
      ++ page_request w u (<["after" := JNull]> (default ∅ data_dict)) :: rest.
Proof.
  unfold _get_all_pages. rewrite get_all_pages_loop_step.
  pose proof (get_page_world u
    (Some (<["after" := JNull]> (default ∅ data_dict))) w) as Hw.
  change (default ∅ (Some ?x)) with x in Hw.
  destruct (_get_page u _ w) as [[[res data_dict']|e|] w'];
    cbn [snd] in *; subst w'; try (by exists []).
  destruct (read_page res) as [[items [after|]]| |]; cbn [snd];
    try (by exists []).
  destruct (is_none after); [by exists []|].
  match goal with
  | |- context [_get_all_pages_loop fuel u ?dd ?rs ?w1] =>
      destruct (get_all_pages_loop_posts fuel u dd rs w1)
        as [_ (new & Hp & _)]
  end.
  exists new. rewrite Hp. cbn [log_request posted].
  by rewrite <- app_assoc.
Qed.

Lemma login_phids_hit (fuel : nat) (w : World) (cached : list json) :
  _login_phids (phabricator w) = Some cached → cached ≠ [] →
  login_phids fuel w = (Ok cached, w).
Proof.
  intros Hc Hne. unfold login_phids. rewrite get_bind, Hc.
  by destruct cached.
Qed.

Lemma login_phids_stored (fuel : nat) (w : World) (phids : list json)
    (w1 : World) :
  login_phids fuel w = (Ok phids, w1) →
  _login_phids (phabricator w1) = Some phids.
Proof.
  unfold login_phids. rewrite get_bind.
  destruct (_login_phids (phabricator w)) as [[|phid cached]|] eqn:Hc.
  2: { by intros [= <- <-]. }
  all: unfold Run.bind, Run.lift;
    destruct (_get_all_pages _ _ _ w) as [[results|e|] w'];
    try discriminate;
    destruct (Res.mapM _ results) as [l|e|]; try discriminate;
    cbn; by intros [= <- <-].
Qed.

Lemma login_phids_miss (fuel : nat) (w : World) :
  _login_phids (phabricator w) = Some [] ∨ _login_phids (phabricator w) = None →
  ∃ r rest,
    posted (login_phids (S fuel) w).2 = posted w ++ r :: rest
    ∧ req_url r = url (phabricator w) +:+ "/user.search".
Proof.
  intros Hc. unfold login_phids. rewrite get_bind.
  assert (∀ results : list json, preserves (posts (λ _ _ _, True))
    (Run.bind (Run.lift (Res.mapM (λ user, py_getitem user "phid") results))
       (λ phids, Run.bind (Run.modify (set_login_phids phids))
                   (λ _, Run.ret phids)))) as Hk.
  { intros results.
    apply preserves_bind; [apply _|apply preserves_lift, _|intros phids].
    apply preserves_bind; [apply _| |intros _; apply preserves_ret, _].
    by apply modify_posts. }
  destruct Hc as [-> | ->];
    match goal with
    | |- context [Run.bind ?m ?k w] =>
        destruct (bind_posted_extends _ m k w Hk) as (new & ->)
    end;
    destruct (get_all_pages_first_request fuel
      (url (phabricator w) +:+ "/user.search")
      (Some (set_indexed "constraints[usernames]" 0
               (JStr <$> logins (phabricator w)) ∅)) w) as (rest & ->);
    eexists _, (rest ++ new); by rewrite <- app_assoc.
Qed.

(** C3, as the code has it: once an access to [login_phids] has
    completed with a non-empty identifier list, every later access
    returns that list and leaves the state as it is, so no request is
    posted.  An empty resolution is stored as the empty list, which
    is also the mark of "not resolved yet": the next access posts the
    [user.search] query again. *)
Theorem login_phids_cached (fuel : nat) (w : World) (phids : list json)
    (w1 : World) :
  login_phids fuel w = (Ok phids, w1) →
  (phids ≠ [] → ∀ fuel', login_phids fuel' w1 = (Ok phids, w1))
  ∧ (phids = [] →
     ∀ fuel', ∃ r rest,
       posted (login_phids (S fuel') w1).2 = posted w1 ++ r :: rest
       ∧ req_url r = url (phabricator w1) +:+ "/user.search").
Proof.
  intros Hrun. apply login_phids_stored in Hrun. split.
  - intros Hne fuel'. by apply login_phids_hit.
  - intros -> fuel'. apply login_phids_miss. by left.
Qed.
End LoginPhids.

(** C3, as stated, fails when the first resolution returns no
    identifier: both accesses complete with the empty list, and the
    second one posts a request of its own. *)
Lemma login_phids_empty_resolved_again :
  let rt := scripted [ok_page [] (Some JNull); ok_page [] (Some JNull)] in
  let first := login_phids 5 world0 in
  let second := login_phids 5 first.2 in
  first.1 = Ok [] ∧ second.1 = Ok []
  ∧ length (posted first.2) = 1%nat
  ∧ length (posted second.2) = 2%nat
  ∧ posted second.2 ≠ posted first.2.
Proof.
  cbv zeta. repeat split; try (vm_compute; reflexivity).
  intros Heq. apply (f_equal length) in Heq. vm_compute in Heq. discriminate.
Qed.

(** ** The "Created" and "Reviewed" assemblers *)

Section CreatedReviewed.
Context `{!Runtime}.

(** C2 fails on the code: [DifferentialsCreated.fetch] and
    [DifferentialsReviewed.fetch] call [search_diffs] with the keyword
    [data_dict], which is no parameter of [search_diffs].  Whenever
    the login identifiers resolve and the window is set, the call
    raises [TypeError]; in no case does either fetch return, the
    [stats] stay as they were, and the only requests posted are those
    of the login resolution. *)
Theorem created_and_reviewed_fetch_raise (fuel : nat) (options : Options)
    (w : World) :
  let outcome : result unit :=
    let? _ := (login_phids fuel w).1 in
    let? _ := strftime (since options) in
    let? _ := strftime (until options) in
    Raise (TypeError
      "search_diffs() got an unexpected keyword argument 'data_dict'") in
  DifferentialsCreated_fetch fuel options w = (outcome, (login_phids fuel w).2)
  ∧ DifferentialsReviewed_fetch fuel options w = (outcome, (login_phids fuel w).2)
  ∧ (∀ x, outcome ≠ Ok x)
  ∧ created_stats (DifferentialsCreated_fetch fuel options w).2 = created_stats w
  ∧ reviewed_stats (DifferentialsReviewed_fetch fuel options w).2 = reviewed_stats w
  ∧ posts user_search w (DifferentialsCreated_fetch fuel options w).2
  ∧ posts user_search w (DifferentialsReviewed_fetch fuel options w).2.
Proof.
  cbv zeta.
  assert (Hc : DifferentialsCreated_fetch fuel options w
               = (let? _ := (login_phids fuel w).1 in
                  let? _ := strftime (since options) in
                  let? _ := strftime (until options) in
                  Raise (TypeError
                    "search_diffs() got an unexpected keyword argument 'data_dict'"),
                  (login_phids fuel w).2)).
  { unfold DifferentialsCreated_fetch. rewrite bind_keywords_data_dict.
    unfold Run.bind, Run.lift.
    destruct (login_phids fuel w) as [[phids|e|] w1]; try reflexivity.
    cbn [fst snd Res.bind].
    destruct (strftime (since options)); try reflexivity.
    destruct (strftime (until options)); reflexivity. }
  assert (Hr : DifferentialsReviewed_fetch fuel options w
               = (let? _ := (login_phids fuel w).1 in
                  let? _ := strftime (since options) in
                  let? _ := strftime (until options) in
                  Raise (TypeError
                    "search_diffs() got an unexpected keyword argument 'data_dict'"),
                  (login_phids fuel w).2)).
  { unfold DifferentialsReviewed_fetch. rewrite bind_keywords_data_dict.
    unfold Run.bind, Run.lift.
    destruct (login_phids fuel w) as [[phids|e|] w1]; try reflexivity.
    cbn [fst snd Res.bind].
    destruct (strftime (since options)); try reflexivity.
    destruct (strftime (until options)); reflexivity. }
  split; [exact Hc|]. split; [exact Hr|]. split.
  { intros x. destruct (login_phids fuel w).1; try discriminate.
    cbn [Res.bind]. destruct (strftime (since options)); try discriminate.
    cbn [Res.bind]. destruct (strftime (until options)); discriminate. }
  rewrite Hc, Hr. cbn [snd].
  split; [apply (login_phids_keeps_stats fuel w)|].
  split; [apply (login_phids_keeps_stats fuel w)|].
  split; apply login_phids_posts.
Qed.
End CreatedReviewed.

(** ** The "Commented" assembler *)

Section Commented.
Context `{!Runtime}.
Import EventType.

Lemma printed_0 (w : World) : printed 0 w = w.
Proof. destruct w. unfold printed. simpl. by rewrite app_nil_r. Qed.

Lemma printed_S (n : nat) (w : World) :
  printed n (print "out of date" w).2 = printed (S n) w.
Proof. unfold printed. simpl. by rewrite <- app_assoc. Qed.

Lemma for_events_run (options : Options) (diff : Differential.t)
    (events : list TransactionEvent.t)
    (commented_diffs closed_diffs : list Differential.t) (w : World) :
  Forall (dated options) events →
  ∃ closed_diffs',
    for_events options diff events commented_diffs closed_diffs w
    = (Ok (commented_diffs ++ contribution options diff events, closed_diffs'),
       printed (length (out_of_window options events)) w).
Proof.
  intros Hdated. revert commented_diffs closed_diffs w.
  induction Hdated as [|event events [b Hb] _ IH];
    intros commented_diffs closed_diffs w.
  { exists closed_diffs. cbn. by rewrite app_nil_r, printed_0. }
  cbn [for_events]. unfold Run.bind at 1, Run.lift at 1. rewrite Hb.
  assert (Hq : qualifies options event
               = if b then TransactionEvent.is_type event COMMENT
                           || TransactionEvent.is_type event INLINE
                 else false)
    by (unfold qualifies; rewrite Hb; by destruct b).
  unfold contribution, out_of_window.
  destruct b; cbn [negb].
  - rewrite (filter_cons_False (λ ev, _ = Ok false)) by (rewrite Hb; discriminate).
    destruct (TransactionEvent.is_type event COMMENT
              || TransactionEvent.is_type event INLINE) eqn:Hci.
    + rewrite (filter_cons_True (λ ev, qualifies options ev = true)) by done.
      destruct (IH (commented_diffs ++ [diff]) closed_diffs w) as [cl ->].
      exists cl. cbn [length replicate]. unfold contribution, out_of_window.
      by rewrite <- app_assoc.
    + rewrite (filter_cons_False (λ ev, qualifies options ev = true))
        by (rewrite Hq; discriminate).
      destruct (TransactionEvent.is_type event CLOSE); apply IH.
  - rewrite (filter_cons_True (λ ev, _ = Ok false)) by done.
    rewrite (filter_cons_False (λ ev, qualifies options ev = true))
      by (rewrite Hq; discriminate).
    unfold Run.bind.
    destruct (IH commented_diffs closed_diffs (print "out of date" w).2)
      as [cl Hrun].
    exists cl. cbn [print Run.modify fst snd] in *. rewrite Hrun.
    cbn [length]. unfold contribution, out_of_window.
    by rewrite <- printed_S.
Qed.

Lemma fetched_length fuel options w diffs eventss w' :
  fetched fuel options w diffs eventss w' → length diffs = length eventss.
Proof. induction 1; simpl; congruence. Qed.

Lemma for_diffs_run (fuel : nat) (options : Options) (w : World)
    (diffs : list Differential.t) (eventss : list (list TransactionEvent.t))
    (w' : World) :
  fetched fuel options w diffs eventss w' →
  ∀ commented_diffs closed_diffs,
  ∃ closed_diffs',
    for_diffs fuel options diffs commented_diffs closed_diffs w
    = (Ok (commented_diffs ++ contributions options diffs eventss,
           closed_diffs'), w').
Proof.
  induction 1 as [w|w diff diffs diff_phid author_phids w1 events w2 eventss
                    w3 Hphid Hlogin Hsearch Hdated _ IH];
    intros commented_diffs closed_diffs.
  { exists closed_diffs. cbn. by rewrite app_nil_r. }
  cbn [for_diffs]. unfold Run.bind at 1, Run.lift at 1. rewrite Hphid.
  unfold Run.bind at 1. rewrite Hlogin.
  unfold Run.bind at 1. rewrite Hsearch.
  unfold Run.bind at 1.
  destruct (for_events_run options diff events commented_diffs closed_diffs
              w2 Hdated) as [cl ->].
  cbn [fst snd].
  destruct (IH (commented_diffs ++ contribution options diff events) cl)
    as [cl' ->].
  exists cl'. unfold contributions. cbn [zip_with concat].
  by rewrite <- app_assoc.
Qed.

(** The run of [DifferentialsCommented.fetch]: when the logins
    resolve, the search returns [diffs] and the loop is served
    [eventss], the fetch returns and stores the contributions of the
    Differentials, in order. *)
Lemma commented_fetch_run (fuel : nat) (options : Options) (w : World)
    (author_phids : list json) (w0 : World) (diffs : list Differential.t)
    (w1 : World) (eventss : list (list TransactionEvent.t)) (w2 : World) :
  login_phids fuel w = (Ok author_phids, w0) →
  search_diffs fuel (verbose options) (since options) (until options)
    (Some author_phids) None w0 = (Ok diffs, w1) →
  fetched fuel options w1 diffs eventss w2 →
  ∃ w3, DifferentialsCommented_fetch fuel options w = (Ok tt, w3)
        ∧ commented_stats w3 = contributions options diffs eventss.
Proof.
  intros Hlogin Hsearch Hfetched. unfold DifferentialsCommented_fetch.
  unfold Run.bind at 1. rewrite Hlogin.
  unfold Run.bind at 1. rewrite Hsearch.
  unfold Run.bind at 1.
  destruct (for_diffs_run _ _ _ _ _ _ Hfetched [] []) as [cl ->].
  cbn. eauto.
Qed.
End Commented.

Section CommentedReport.
Context `{!Runtime}.
Import EventType.

Lemma init_oid (self : nat) (data : json) (verbose : bool) (d : Differential.t) :
  Differential.init self data verbose = Ok d → Differential.oid d = self.
Proof.
  unfold Differential.init. destruct verbose.
  - destruct (py_getitem data "fields") as [fields| |]; try discriminate.
    cbn [Res.bind].
    destruct (py_getitem fields "uri"); try discriminate. cbn [Res.bind].
    destruct (py_getitem fields "title"); try discriminate. cbn [Res.bind].
    by intros [= <-].
  - destruct (py_getitem data "id"); try discriminate. cbn [Res.bind].
    destruct (py_getitem data "fields") as [fields| |]; try discriminate.
    cbn [Res.bind].
    destruct (py_getitem fields "title"); try discriminate. cbn [Res.bind].
    by intros [= <-].
Qed.

(** New Differentials get consecutive identities. *)
Lemma new_differentials_oids (verbose : bool) (records : list json) :
  ∀ (w : World) (diffs : list Differential.t) (w' : World),
    Run.mapM (λ diff, Run.bind new_id (λ self,
                Run.lift (Differential.init self diff verbose))) records w
    = (Ok diffs, w') →
    Differential.oid <$> diffs = seq (next_id w) (length records).
Proof.
  induction records as [|record records IH]; intros w diffs w'.
  { cbn. by intros [= <- _]. }
  cbn [Run.mapM]. unfold Run.bind at 1. unfold Run.bind at 1.
  cbn [new_id]. unfold Run.lift at 1.
  destruct (Differential.init (next_id w) record verbose) as [d| |] eqn:Hd;
    try discriminate.
  unfold Run.bind at 1.
  match goal with
  | |- context [Run.mapM ?f records ?w1] =>
      destruct (Run.mapM f records w1) as [[ds|e|] w2] eqn:Hrest;
        try discriminate;
      apply IH in Hrest
  end.
  cbn. intros [= <- _]. cbn [fmap list_fmap length seq].
  f_equal; [by apply init_oid in Hd|]. exact Hrest.
Qed.

Lemma search_diffs_oids (fuel : nat) (verbose : bool)
    (since until : option date)
    (author_phids reviewer_phids : option (list json))
    (w : World) (diffs : list Differential.t) (w' : World) :
  search_diffs fuel verbose since until author_phids reviewer_phids w
  = (Ok diffs, w') →
  NoDup (Differential.oid <$> diffs).
Proof.
  unfold search_diffs. rewrite get_bind. unfold Run.bind at 1.
  destruct (_get_all_pages _ _ _ w) as [[records|e|] w1]; try discriminate.
  intros Hnew. apply new_differentials_oids in Hnew. rewrite Hnew.
  apply NoDup_seq.
Qed.

Lemma kept_occurrences (diff : Differential.t) (l : list Differential.t) :
  kept diff l ↔ (0 < occurrences diff l)%nat.
Proof.
  unfold kept, occurrences. split.
  - intros (d & Hd & Hoid).
    assert (d ∈ filter (λ d, Differential.oid d = Differential.oid diff) l)
      as Hin by (by apply list_elem_of_filter).
    destruct (filter _ l); [by apply not_elem_of_nil in Hin|simpl; lia].
  - intros Hlen.
    destruct (filter (λ d, Differential.oid d = Differential.oid diff) l)
      as [|d rest] eqn:Hf; [simpl in Hlen; lia|].
    assert (d ∈ filter (λ d, Differential.oid d = Differential.oid diff) l)
      as Hin by (rewrite Hf; left).
    apply list_elem_of_filter in Hin as [? ?]. eauto.
Qed.

Lemma occurrences_app (diff : Differential.t) (l1 l2 : list Differential.t) :
  occurrences diff (l1 ++ l2)
  = (occurrences diff l1 + occurrences diff l2)%nat.
Proof. unfold occurrences. by rewrite filter_app, length_app. Qed.

Lemma occurrences_replicate (diff d : Differential.t) (n : nat) :
  occurrences diff (replicate n d)
  = if decide (Differential.oid d = Differential.oid diff) then n else 0%nat.
Proof.
  unfold occurrences. induction n as [|n IH]; cbn [replicate].
  - by case_decide.
  - rewrite filter_cons. case_decide; cbn [length]; by rewrite IH.
Qed.

Lemma occurrences_absent (options : Options) (diff : Differential.t)
    (diffs : list Differential.t) (eventss : list (list TransactionEvent.t)) :
  Differential.oid diff ∉ Differential.oid <$> diffs →
  occurrences diff (contributions options diffs eventss) = 0%nat.
Proof.
  revert eventss. induction diffs as [|d diffs IH]; intros [|events eventss] Hni;
    try reflexivity.
  unfold contributions. cbn [zip_with concat]. rewrite occurrences_app.
  cbn [fmap list_fmap] in Hni. apply not_elem_of_cons in Hni as [Hne Hni].
  unfold contribution at 1. rewrite occurrences_replicate.
  rewrite decide_False by congruence. by apply IH.
Qed.

(** The object at position [i] occurs as often as its events qualify. *)
Lemma occurrences_contributions (options : Options)
    (diffs : list Differential.t) (eventss : list (list TransactionEvent.t))
    (i : nat) (diff : Differential.t) (events : list TransactionEvent.t) :
  NoDup (Differential.oid <$> diffs) →
  diffs !! i = Some diff → eventss !! i = Some events →
  occurrences diff (contributions options diffs eventss)
  = length (filter (λ event, qualifies options event = true) events).
Proof.
  revert eventss i.
  induction diffs as [|d diffs IH]; intros [|evs eventss] i Hnd Hd He;
    try done.
  cbn [fmap list_fmap] in Hnd. apply NoDup_cons in Hnd as [Hni Hnd].
  unfold contributions. cbn [zip_with concat]. rewrite occurrences_app.
  unfold contribution at 1. rewrite occurrences_replicate.
  destruct i as [|i]; cbn in Hd, He.
  - injection Hd as ->. injection He as ->.
    rewrite decide_True by done.
    fold (contributions options diffs eventss).
    rewrite occurrences_absent by done. lia.
  - rewrite decide_False.
    + fold (contributions options diffs eventss). by rewrite (IH eventss i).
    + intros Heq. apply Hni. rewrite Heq.
      apply list_elem_of_fmap. exists diff. split; [done|].
      by eapply list_elem_of_lookup_2.
Qed.

Lemma qualifies_true (options : Options) (event : TransactionEvent.t) :
  qualifies options event = true ↔
  TransactionEvent.is_in_date_range event (since options) (until options)
  = Ok true
  ∧ (TransactionEvent.is_type event COMMENT = true
     ∨ TransactionEvent.is_type event INLINE = true).
Proof.
  unfold qualifies.
  destruct (TransactionEvent.is_in_date_range _ _ _) as [[]| |];
    rewrite ?orb_true_iff; split; try tauto; try discriminate;
    by intros [[=] _].
Qed.

Lemma is_type_close_not_comment (event : TransactionEvent.t) :
  TransactionEvent.is_type event CLOSE = true →
  TransactionEvent.is_type event COMMENT = false
  ∧ TransactionEvent.is_type event INLINE = false.
Proof.
  unfold TransactionEvent.is_type.
  rewrite !decide_False by discriminate.
  rewrite py_eq_str_true. by intros ->.
Qed.
End CommentedReport.

Section CommentedClaims.
Context `{!Runtime}.
Import EventType.

(** C5: when the logins resolve, the author search returns [diffs]
    and the loop is served the transactions [eventss], the fetch
    returns, and the Differential at a position of [diffs] is kept in
    the stored list exactly when one of its events falls within the
    window (per [is_in_date_range]) and is of type comment or
    inline-comment.  A Differential each of whose in-window events is
    of type close is not kept. *)
Theorem commented_keeps_iff_qualifying_event (fuel : nat) (options : Options)
    (w : World) (author_phids : list json) (w0 : World)
    (diffs : list Differential.t) (w1 : World)
    (eventss : list (list TransactionEvent.t)) (w2 : World)
    (i : nat) (diff : Differential.t) (events : list TransactionEvent.t) :
  login_phids fuel w = (Ok author_phids, w0) →
  search_diffs fuel (verbose options) (since options) (until options)
    (Some author_phids) None w0 = (Ok diffs, w1) →
  fetched fuel options w1 diffs eventss w2 →
  diffs !! i = Some diff →
  eventss !! i = Some events →
  ∃ w3,
    DifferentialsCommented_fetch fuel options w = (Ok tt, w3)
    ∧ (kept diff (commented_stats w3) ↔
         Exists (λ event,
                   TransactionEvent.is_in_date_range event (since options)
                     (until options) = Ok true
                   ∧ (TransactionEvent.is_type event COMMENT = true
                      ∨ TransactionEvent.is_type event INLINE = true))
           events)
    ∧ ((∀ event, event ∈ events →
          TransactionEvent.is_in_date_range event (since options)
            (until options) = Ok true →
          TransactionEvent.is_type event CLOSE = true) →
       ¬ kept diff (commented_stats w3)).
Proof.
  intros Hlogin Hsearch Hfetched Hdiff Hevents.
  destruct (commented_fetch_run _ _ _ _ _ _ _ _ _ Hlogin Hsearch Hfetched)
    as (w3 & Hrun & Hstats).
  exists w3. split; [exact Hrun|].
  assert (Hiff : kept diff (commented_stats w3) ↔
    Exists (λ event,
              TransactionEvent.is_in_date_range event (since options)
                (until options) = Ok true
              ∧ (TransactionEvent.is_type event COMMENT = true
                 ∨ TransactionEvent.is_type event INLINE = true)) events).
  { rewrite kept_occurrences, Hstats.
    rewrite (occurrences_contributions options diffs eventss i diff events)
      by eauto using search_diffs_oids.
    rewrite Exists_exists. split.
    - intros Hlen.
      destruct (filter (λ event, qualifies options event = true) events)
        as [|event rest] eqn:Hf; [simpl in Hlen; lia|].
      assert (event ∈ filter (λ event, qualifies options event = true) events)
        as Hin by (rewrite Hf; left).
      apply list_elem_of_filter in Hin as [Hq Hin].
      exists event. split; [done|]. by apply qualifies_true.
    - intros (event & Hin & Hq). apply qualifies_true in Hq.
      assert (event ∈ filter (λ event, qualifies options event = true) events)
        as Hin' by (by apply list_elem_of_filter).
      destruct (filter _ events); [by apply not_elem_of_nil in Hin'|].
      simpl. lia. }
  split; [exact Hiff|].
  intros Hclose Hkept. apply Hiff, Exists_exists in Hkept
    as (event & Hin & Hrange & Htype).
  destruct (is_type_close_not_comment event (Hclose event Hin Hrange))
    as [Hc Hi].
  destruct Htype; congruence.
Qed.

(** C10: in the same run, the Differential at a position of [diffs]
    occurs in the stored list once per qualifying event: as often as
    its events fall within the window and are of type comment or
    inline-comment. *)
Theorem commented_once_per_qualifying_event (fuel : nat) (options : Options)
    (w : World) (author_phids : list json) (w0 : World)
    (diffs : list Differential.t) (w1 : World)
    (eventss : list (list TransactionEvent.t)) (w2 : World)
    (i : nat) (diff : Differential.t) (events : list TransactionEvent.t) :
  login_phids fuel w = (Ok author_phids, w0) →
  search_diffs fuel (verbose options) (since options) (until options)
    (Some author_phids) None w0 = (Ok diffs, w1) →
  fetched fuel options w1 diffs eventss w2 →
  diffs !! i = Some diff →
  eventss !! i = Some events →
  ∃ w3,
    DifferentialsCommented_fetch fuel options w = (Ok tt, w3)
    ∧ commented_stats w3
      = concat (zip_with
                  (λ diff events,
                     replicate
                       (length (filter (λ event, qualifies options event = true)
                                  events)) diff)
                  diffs eventss)
    ∧ occurrences diff (commented_stats w3)
      = length (filter (λ event, qualifies options event = true) events).
Proof.
  intros Hlogin Hsearch Hfetched Hdiff Hevents.
  destruct (commented_fetch_run _ _ _ _ _ _ _ _ _ Hlogin Hsearch Hfetched)
    as (w3 & Hrun & Hstats).
  exists w3. split; [exact Hrun|]. split; [exact Hstats|].
  rewrite Hstats.
  apply (occurrences_contributions options diffs eventss i diff events);
    eauto using search_diffs_oids.
Qed.
End CommentedClaims.

(** ** A fetch that stops: failures, cursors, and the loop without bound *)

Section Paging.
Context `{!Runtime}.

Lemma prepared_insert_after tok (data_dict : gmap string json) (after : json) :
  prepared tok (<["after" := after]> data_dict)
  = <["after" := after]> (prepared tok data_dict).
Proof.
  apply map_eq. intros k. rewrite prepared_lookup.
  destruct (decide (k = "after")) as [->|Hk].
  - rewrite decide_False, decide_False by done. by rewrite !lookup_insert_eq.
  - rewrite !lookup_insert_ne by done. by rewrite prepared_lookup.
Qed.

Lemma log_requests_nil (w : World) : log_requests [] w = w.
Proof. destruct w. unfold log_requests. simpl. by rewrite app_nil_r. Qed.

Lemma log_requests_app (rs1 rs2 : list Request) (w : World) :
  log_requests rs2 (log_requests rs1 w) = log_requests (rs1 ++ rs2) w.
Proof. unfold log_requests. simpl. by rewrite app_assoc. Qed.

Lemma log_request_one (r : Request) (w : World) :
  log_request r w = log_requests [r] w.
Proof. reflexivity. Qed.

(** The loop reads its mapping through [prepared] only: one turn, for
    a mapping that prepares to the request with cursor [after]. *)
Lemma get_page_at_cursor (u : string) (data_dict dd : gmap string json)
    (after : json) (w : World) :
  prepared (token (phabricator w)) dd
  = <["after" := after]> (prepared (token (phabricator w)) data_dict) →
  page_request w u dd = cursor_request u (token (phabricator w)) data_dict after.
Proof. intros Hdd. unfold page_request, cursor_request. by rewrite Hdd. Qed.

(** The loop runs through the pages served and goes on from the cursor
    that follows them. *)
Lemma get_all_pages_loop_prefix (u : string) (data_dict : gmap string json)
    (pages : list (list json * json)) :
  ∀ (w : World) (after : json) (dd : gmap string json) (fuel : nat)
    (results : list json),
    prepared (token (phabricator w)) dd
    = <["after" := after]> (prepared (token (phabricator w)) data_dict) →
    pages_served u (token (phabricator w)) data_dict (posted w) after pages →
    ∃ dd',
      prepared (token (phabricator w)) dd'
      = <["after" := next_cursor after pages]>
          (prepared (token (phabricator w)) data_dict)
      ∧ _get_all_pages_loop (length pages + fuel) u dd results w
        = _get_all_pages_loop fuel u dd' (results ++ concat (fst <$> pages))
            (log_requests
               (prefix_requests u (token (phabricator w)) data_dict after pages)
               w).
Proof.
  induction pages as [|[records cursor] pages IH];
    intros w after dd fuel results Hdd Hserved.
  { exists dd. split; [done|]. cbn. by rewrite app_nil_r, log_requests_nil. }
  destruct Hserved as [(res & Hpost & Hrec & Hnext) Hserved]. cbn [fst snd] in *.
  rewrite <- (get_page_at_cursor u data_dict dd after w Hdd) in Hpost.
  cbn [length Nat.add]. rewrite get_all_pages_loop_step.
  rewrite (get_page_served u dd w res records Hpost Hrec).
  rewrite (read_page_next res records cursor Hrec Hnext).
  destruct Hnext as (_ & _ & _ & Hnn).
  assert (is_none cursor = false) as -> by (by destruct cursor).
  rewrite (get_page_at_cursor u data_dict dd after w Hdd) in *.
  destruct (IH (log_request (cursor_request u (token (phabricator w)) data_dict after) w)
              cursor (<["after" := cursor]> (prepared (token (phabricator w)) dd))
              fuel (results ++ records)) as (dd' & Hdd' & Hrun).
  - cbn [log_request phabricator]. rewrite prepared_insert_after, Hdd.
    rewrite prepared_insert_after, prepared_idem.
    by rewrite !insert_insert_eq.
  - exact Hserved.
  - exists dd'. split; [exact Hdd'|]. rewrite Hrun.
    cbn [prefix_requests fmap list_fmap concat fst snd].
    rewrite log_request_one, log_requests_app. cbn [app].
    by rewrite <- app_assoc.
Qed.

(** [_get_all_pages] up to the request that follows the pages served. *)
Lemma get_all_pages_prefix (u : string) (data_dict : gmap string json)
    (pages : list (list json * json)) (w : World) (fuel : nat) :
  pages_served u (token (phabricator w)) data_dict (posted w) JNull pages →
  ∃ dd',
    prepared (token (phabricator w)) dd'
    = <["after" := next_cursor JNull pages]>
        (prepared (token (phabricator w)) data_dict)
    ∧ _get_all_pages (length pages + fuel) u (Some data_dict) w
      = _get_all_pages_loop fuel u dd' (concat (fst <$> pages))
          (log_requests
             (prefix_requests u (token (phabricator w)) data_dict JNull pages) w).
Proof.
  intros Hserved. unfold _get_all_pages.
  change (default ∅ (Some data_dict)) with data_dict.
  apply (get_all_pages_loop_prefix u data_dict pages w JNull
           (<["after" := JNull]> data_dict) fuel []);
    [apply prepared_insert_after|exact Hserved].
Qed.

End Paging.

Section PagingFailures.
Context `{!Runtime}.

(** The turn at the request that follows the pages served. *)
Lemma get_all_pages_turn (u : string) (data_dict : gmap string json)
    (pages : list (list json * json)) (w : World) (fuel : nat) :
  pages_served u (token (phabricator w)) data_dict (posted w) JNull pages →
  ∃ dd' w',
    _get_all_pages (length pages + S fuel) u (Some data_dict) w
    = _get_all_pages_loop (S fuel) u dd' (concat (fst <$> pages)) w'
    ∧ requests_post (posted w') (page_request w' u dd')
      = response_after u data_dict w pages
    ∧ log_request (page_request w' u dd') w' = stopped_after u data_dict w pages.
Proof.
  intros Hserved.
  destruct (get_all_pages_prefix u data_dict pages w (S fuel) Hserved)
    as (dd' & Hdd' & Hrun).
  eexists dd', _. split; [exact Hrun|].
  assert (Hreq : page_request
      (log_requests (prefix_requests u (token (phabricator w)) data_dict JNull pages) w)
      u dd'
    = cursor_request u (token (phabricator w)) data_dict (next_cursor JNull pages))
    by (unfold page_request, cursor_request; cbn; by rewrite Hdd').
  rewrite Hreq. split; [reflexivity|].
  unfold stopped_after. by rewrite log_request_one, log_requests_app.
Qed.

(** A page request that [_get_page] fails on ends the fetch with that
    exception. *)
Lemma get_all_pages_page_raises (u : string) (data_dict : gmap string json)
    (pages : list (list json * json)) (w : World) (fuel : nat) (e : exn) :
  pages_served u (token (phabricator w)) data_dict (posted w) JNull pages →
  (∀ dd' w',
     requests_post (posted w') (page_request w' u dd')
     = response_after u data_dict w pages →
     (_get_page u (Some dd') w').1 = Raise e) →
  _get_all_pages (length pages + S fuel) u (Some data_dict) w
  = (Raise e, stopped_after u data_dict w pages).
Proof.
  intros Hserved Hfail.
  destruct (get_all_pages_turn u data_dict pages w fuel Hserved)
    as (dd' & w' & -> & Hresp & Hw').
  rewrite get_all_pages_loop_step.
  specialize (Hfail dd' w' Hresp).
  pose proof (get_page_world u (Some dd') w') as Hw.
  change (default ∅ (Some dd')) with dd' in Hw. rewrite Hw' in Hw.
  destruct (_get_page u (Some dd') w') as [[[? ?]|e'|] w''];
    cbn [fst snd] in *; try discriminate.
  injection Hfail as ->. by subst w''.
Qed.

(** A decoded page that the loop fails to read ends the fetch with
    that exception. *)
Lemma get_all_pages_read_raises (u : string) (data_dict : gmap string json)
    (pages : list (list json * json)) (w : World) (fuel : nat)
    (res : json) (e : exn) :
  pages_served u (token (phabricator w)) data_dict (posted w) JNull pages →
  response_after u data_dict w pages = HttpResponse 200 (Some res) →
  py_getitem res "error_info" = Ok JNull →
  read_page res = Raise e →
  _get_all_pages (length pages + S fuel) u (Some data_dict) w
  = (Raise e, stopped_after u data_dict w pages).
Proof.
  intros Hserved Hresp Hinfo Hread.
  destruct (get_all_pages_turn u data_dict pages w fuel Hserved)
    as (dd' & w' & -> & Hpost & Hw').
  rewrite get_all_pages_loop_step, get_page_unfold.
  change (default ∅ (Some dd')) with dd'. cbv zeta.
  rewrite Hpost, Hresp. cbn [Z.eqb Pos.eqb negb]. rewrite Hinfo.
  cbn [is_none negb]. rewrite Hread. by rewrite Hw'.
Qed.

(** X1: a transport failure at any page of a fetch ends the fetch with
    the [ReportError] that names the endpoint; the records of the pages
    fetched so far are not returned. *)
Theorem get_all_pages_transport_error (u : string)
    (data_dict : gmap string json) (pages : list (list json * json))
    (w : World) (fuel : nat) :
  pages_served u (token (phabricator w)) data_dict (posted w) JNull pages →
  response_after u data_dict w pages = RequestException →
  _get_all_pages (length pages + S fuel) u (Some data_dict) w
  = (Raise (ReportError ("Phabricator search on " +:+ u +:+ " failed")),
     stopped_after u data_dict w pages).
Proof.
  intros Hserved Hresp. apply get_all_pages_page_raises; [exact Hserved|].
  intros dd' w' Hpost. rewrite get_page_unfold.
  change (default ∅ (Some dd')) with dd'. cbv zeta.
  by rewrite Hpost, Hresp.
Qed.

(** X2: a response whose status is not 200, at any page of a fetch,
    ends the fetch with the [RuntimeError] that carries the status
    code, whatever its body. *)
Theorem get_all_pages_bad_status (u : string)
    (data_dict : gmap string json) (pages : list (list json * json))
    (w : World) (fuel : nat) (status_code : Z) (body : option json) :
  pages_served u (token (phabricator w)) data_dict (posted w) JNull pages →
  response_after u data_dict w pages = HttpResponse status_code body →
  status_code ≠ 200 →
  _get_all_pages (length pages + S fuel) u (Some data_dict) w
  = (Raise (RuntimeError
       ("Phabricator request exited with status code "
        +:+ pretty status_code +:+ " rather than 200.")),
     stopped_after u data_dict w pages).
Proof.
  intros Hserved Hresp Hcode. apply get_all_pages_page_raises; [exact Hserved|].
  intros dd' w' Hpost. rewrite get_page_unfold.
  change (default ∅ (Some dd')) with dd'. cbv zeta. rewrite Hpost, Hresp.
  destruct (Z.eqb_spec status_code 200); [done|]. by destruct body.
Qed.

(** X3: a body that does not decode, with status 200, ends the fetch
    with the [ReportError] of the parse failure. *)
Theorem get_all_pages_unparseable_body (u : string)
    (data_dict : gmap string json) (pages : list (list json * json))
    (w : World) (fuel : nat) :
  pages_served u (token (phabricator w)) data_dict (posted w) JNull pages →
  response_after u data_dict w pages = HttpResponse 200 None →
  _get_all_pages (length pages + S fuel) u (Some data_dict) w
  = (Raise (ReportError "Phabricator failed to parse JSON response."),
     stopped_after u data_dict w pages).
Proof.
  intros Hserved Hresp. apply get_all_pages_page_raises; [exact Hserved|].
  intros dd' w' Hpost. rewrite get_page_unfold.
  change (default ∅ (Some dd')) with dd'. cbv zeta.
  by rewrite Hpost, Hresp.
Qed.

(** X4: the [error_info] field is read without a guard: a decoded
    object that has no such key ends the fetch with [KeyError], also
    when it carries a results container. *)
Theorem get_all_pages_missing_error_info (u : string)
    (data_dict : gmap string json) (pages : list (list json * json))
    (w : World) (fuel : nat) (fields : list (string * json)) :
  pages_served u (token (phabricator w)) data_dict (posted w) JNull pages →
  response_after u data_dict w pages = HttpResponse 200 (Some (JObj fields)) →
  assoc "error_info" fields = None →
  _get_all_pages (length pages + S fuel) u (Some data_dict) w
  = (Raise (KeyError "error_info"), stopped_after u data_dict w pages).
Proof.
  intros Hserved Hresp Hnone. apply get_all_pages_page_raises; [exact Hserved|].
  intros dd' w' Hpost. rewrite get_page_unfold.
  change (default ∅ (Some dd')) with dd'. cbv zeta. rewrite Hpost, Hresp.
  cbn [Z.eqb Pos.eqb negb py_getitem]. by rewrite Hnone.
Qed.

(** X5: a decoded object without a [result] key ends the fetch with the
    [ReportError] of the missing key. *)
Theorem get_all_pages_missing_result (u : string)
    (data_dict : gmap string json) (pages : list (list json * json))
    (w : World) (fuel : nat) (fields : list (string * json)) :
  pages_served u (token (phabricator w)) data_dict (posted w) JNull pages →
  response_after u data_dict w pages = HttpResponse 200 (Some (JObj fields)) →
  assoc "error_info" fields = Some JNull →
  assoc "result" fields = None →
  _get_all_pages (length pages + S fuel) u (Some data_dict) w
  = (Raise (ReportError "Mising key Phabricator dict: result"),
     stopped_after u data_dict w pages).
Proof.
  intros Hserved Hresp Hinfo Hnone.
  apply (get_all_pages_read_raises u data_dict pages w fuel (JObj fields));
    [exact Hserved|exact Hresp|by cbn; rewrite Hinfo|].
  unfold read_page. cbn [py_in]. rewrite Hnone.
  by rewrite bool_decide_eq_false_2 by (by intros [? ?]).
Qed.

(** X6: a results container without a [data] key ends the fetch with
    [KeyError]. *)
Theorem get_all_pages_result_without_data (u : string)
    (data_dict : gmap string json) (pages : list (list json * json))
    (w : World) (fuel : nat) (res : json) (container : list (string * json)) :
  pages_served u (token (phabricator w)) data_dict (posted w) JNull pages →
  response_after u data_dict w pages = HttpResponse 200 (Some res) →
  py_getitem res "error_info" = Ok JNull →
  py_getitem res "result" = Ok (JObj container) →
  assoc "data" container = None →
  _get_all_pages (length pages + S fuel) u (Some data_dict) w
  = (Raise (KeyError "data"), stopped_after u data_dict w pages).
Proof.
  intros Hserved Hresp Hinfo Hres Hnone.
  apply (get_all_pages_read_raises u data_dict pages w fuel res);
    [exact Hserved|exact Hresp|exact Hinfo|].
  unfold read_page. rewrite (getitem_in _ _ _ Hres). cbn [Res.bind negb].
  rewrite Hres. cbn [Res.bind py_getitem]. by rewrite Hnone.
Qed.

(** X7: a cursor container without an [after] key does not end the
    pagination: it ends the fetch with [KeyError], and the records of
    the page are not returned. *)
Theorem get_all_pages_cursor_without_after (u : string)
    (data_dict : gmap string json) (pages : list (list json * json))
    (w : World) (fuel : nat) (res : json) (records : list json)
    (cursor : list (string * json)) :
  pages_served u (token (phabricator w)) data_dict (posted w) JNull pages →
  response_after u data_dict w pages = HttpResponse 200 (Some res) →
  page_records res records →
  py_getitem res "cursor" = Ok (JObj cursor) →
  assoc "after" cursor = None →
  _get_all_pages (length pages + S fuel) u (Some data_dict) w
  = (Raise (KeyError "after"), stopped_after u data_dict w pages).
Proof.
  intros Hserved Hresp (Hinfo & result_ & Hres & Hdata) Hcur Hnone.
  apply (get_all_pages_read_raises u data_dict pages w fuel res);
    [exact Hserved|exact Hresp|exact Hinfo|].
  unfold read_page. rewrite (getitem_in _ _ _ Hres). cbn [Res.bind negb].
  rewrite Hres. cbn [Res.bind]. rewrite Hdata. cbn [Res.bind py_iter].
  rewrite (getitem_in _ _ _ Hcur). cbn [Res.bind]. rewrite Hcur.
  cbn [Res.bind py_getitem]. by rewrite Hnone.
Qed.
End PagingFailures.

Section PagingRuns.
Context `{!Runtime}.

Lemma prefix_requests_snoc (u tok : string) (data_dict : gmap string json)
    (after : json) (pages : list (list json * json)) :
  prefix_requests u tok data_dict after pages
  ++ [cursor_request u tok data_dict (next_cursor after pages)]
  = cursor_request u tok data_dict <$> (after :: (snd <$> pages)).
Proof.
  revert after. induction pages as [|page pages IH]; intros after; [done|].
  cbn [prefix_requests next_cursor fmap list_fmap app]. f_equal. apply IH.
Qed.

(** X8: the requests of a fetch that completes: the first one carries
    the cursor [None], whatever the caller put under ["after"], every
    other one the cursor of the page before it, and all of them the
    caller's mapping with the two defaults; the records come back in
    page order. *)
Theorem get_all_pages_cursor_chain (u : string)
    (data_dict : gmap string json) (pages : list (list json * json))
    (w : World) (fuel : nat) (res : json) (records : list json) :
  pages_served u (token (phabricator w)) data_dict (posted w) JNull pages →
  response_after u data_dict w pages = HttpResponse 200 (Some res) →
  page_records res records →
  last_page res →
  ∃ w',
    _get_all_pages (length pages + S fuel) u (Some data_dict) w
    = (Ok (concat (fst <$> pages) ++ records), w')
    ∧ posted w'
      = posted w
        ++ (cursor_request u (token (phabricator w)) data_dict
              <$> (JNull :: (snd <$> pages)))
    ∧ phabricator w' = phabricator w.
Proof.
  intros Hserved Hresp Hrec Hlast.
  destruct (get_all_pages_turn u data_dict pages w fuel Hserved)
    as (dd' & w' & -> & Hpost & Hw').
  exists (stopped_after u data_dict w pages).
  rewrite get_all_pages_loop_step.
  rewrite Hresp in Hpost.
  rewrite (get_page_served u dd' w' res records Hpost Hrec), Hw'.
  split; [|split; [|reflexivity]].
  - by destruct (read_page_last res records Hrec Hlast) as [-> | ->].
  - unfold stopped_after. cbn [log_requests posted].
    by rewrite prefix_requests_snoc.
Qed.

Lemma get_all_pages_loop_never_ends (u tok : string)
    (data_dict : gmap string json) :
  (∀ before after,
     ∃ res records cursor,
       requests_post before (cursor_request u tok data_dict after)
       = HttpResponse 200 (Some res)
       ∧ page_records res records
       ∧ next_page res cursor) →
  ∀ (fuel : nat) (w : World) (after : json) (dd : gmap string json)
    (results : list json),
    token (phabricator w) = tok →
    prepared tok dd = <["after" := after]> (prepared tok data_dict) →
    ∃ w', _get_all_pages_loop fuel u dd results w = (OutOfFuel, w')
          ∧ length (posted w') = (length (posted w) + fuel)%nat.
Proof.
  intros Hserver.
  induction fuel as [|fuel IH]; intros w after dd results Htok Hdd.
  { exists w. split; [reflexivity|]. lia. }
  destruct (Hserver (posted w) after)
    as (res & records & cursor & Hpost & Hrec & Hnext).
  rewrite get_all_pages_loop_step.
  assert (Hreq : page_request w u dd = cursor_request u tok data_dict after)
    by (unfold page_request, cursor_request; by rewrite Htok, Hdd).
  rewrite <- Hreq in Hpost.
  rewrite (get_page_served u dd w res records Hpost Hrec).
  rewrite (read_page_next res records cursor Hrec Hnext).
  destruct Hnext as (_ & _ & _ & Hnn).
  assert (is_none cursor = false) as -> by (by destruct cursor).
  destruct (IH (log_request (page_request w u dd) w) cursor
              (<["after" := cursor]> (prepared (token (phabricator w)) dd))
              (results ++ records)) as (w' & Hrun & Hlen).
  - exact Htok.
  - rewrite Htok. rewrite prepared_insert_after, prepared_idem, Hdd.
    by rewrite insert_insert_eq.
  - exists w'. split; [exact Hrun|]. rewrite Hlen.
    cbn [log_request posted]. rewrite length_app. simpl. lia.
Qed.

(** X9: the loop has no bound of its own: against a server that answers
    every request of the fetch with a page whose cursor is not null,
    the fetch never returns, and it posts a request at every turn. *)
Theorem get_all_pages_never_ends (u : string) (data_dict : gmap string json)
    (w : World) :
  (∀ before after,
     ∃ res records cursor,
       requests_post before
         (cursor_request u (token (phabricator w)) data_dict after)
       = HttpResponse 200 (Some res)
       ∧ page_records res records
       ∧ next_page res cursor) →
  ∀ fuel,
    ∃ w', _get_all_pages fuel u (Some data_dict) w = (OutOfFuel, w')
          ∧ length (posted w') = (length (posted w) + fuel)%nat.
Proof.
  intros Hserver fuel. unfold _get_all_pages.
  change (default ∅ (Some data_dict)) with data_dict.
  apply (get_all_pages_loop_never_ends u (token (phabricator w)) data_dict
           Hserver fuel w JNull); [done|apply prepared_insert_after].
Qed.
End PagingRuns.

(** ** What the operations leave as it is *)

Section EngineFrame.
Context `{!Runtime}.

Global Instance logs_only_preorder : PreOrder logs_only.
Proof.
  split.
  - intros w. exists []. by rewrite log_requests_nil.
  - intros w1 w2 w3 [rs1 ->] [rs2 ->]. exists (rs1 ++ rs2).
    by rewrite log_requests_app.
Qed.

(** The query engine changes nothing but the log of requests. *)
Lemma get_all_pages_loop_logs_only (fuel : nat) (u : string)
    (data_dict : gmap string json) (results : list json) :
  preserves logs_only (_get_all_pages_loop fuel u data_dict results).
Proof.
  revert data_dict results.
  induction fuel as [|fuel IH]; intros data_dict results w.
  { simpl. reflexivity. }
  rewrite get_all_pages_loop_step.
  pose proof (get_page_world u (Some data_dict) w) as Hw.
  assert (Hone : logs_only w (log_request
             (page_request w u (default ∅ (Some data_dict))) w))
    by (by eexists [_]).
  destruct (_get_page u (Some data_dict) w) as [[[res data_dict']|e|] w'];
    cbn [snd] in *; subst w'; try exact Hone.
  destruct (read_page res) as [[items [after|]]| |]; cbn [snd]; try exact Hone.
  destruct (is_none after); [exact Hone|].
  etrans; [exact Hone|apply IH].
Qed.

Lemma get_all_pages_logs_only (fuel : nat) (u : string) data_dict :
  preserves logs_only (_get_all_pages fuel u data_dict).
Proof. apply get_all_pages_loop_logs_only. Qed.

Lemma get_all_pages_keeps_investigator (fuel : nat) (u : string) data_dict :
  preserves keeps_investigator (_get_all_pages fuel u data_dict).
Proof.
  eapply preserves_weaken; [|apply get_all_pages_logs_only].
  by intros w w' [rs ->].
Qed.

Lemma get_all_pages_keeps_stdout (fuel : nat) (u : string) data_dict :
  preserves keeps_stdout (_get_all_pages fuel u data_dict).
Proof.
  eapply preserves_weaken; [|apply get_all_pages_logs_only].
  by intros w w' [rs ->].
Qed.

Lemma login_phids_keeps_stdout (fuel : nat) :
  preserves keeps_stdout (login_phids fuel).
Proof.
  unfold login_phids.
  repeat first [ apply get_all_pages_keeps_stdout | preserve_step ];
    by intros ?.
Qed.
End EngineFrame.

(** ** More on the login resolution *)

Section LoginExtras.
Context `{!Runtime}.

(** The requests of one access to [login_phids]. *)
Lemma login_phids_page_of (fuel : nat) (w : World) :
  posts (page_of (url (phabricator w) +:+ "/user.search")
           (usernames_data_dict (phabricator w)))
    w (login_phids fuel w).2.
Proof.
  unfold login_phids, usernames_data_dict. rewrite get_bind.
  destruct (_login_phids (phabricator w)) as [[|phid cached]|];
    [|reflexivity|].
  all: generalize (url (phabricator w)) (logins (phabricator w));
    intros u0 names; revert w.
  all: apply preserves_bind; [apply _|apply get_all_pages_posts|intros results].
  all: apply preserves_bind; [apply _|apply preserves_lift, _|intros phids].
  all: apply preserves_bind; [apply _| |intros _; apply preserves_ret, _].
  all: by apply modify_posts.
Qed.

Lemma usernames_data_dict_lookup (self : Phabricator) (i : nat) :
  usernames_data_dict self !! indexed_key "constraints[usernames]" i
  = JStr <$> logins self !! i.
Proof.
  unfold usernames_data_dict. rewrite set_indexed_lookup.
  rewrite length_fmap, Nat.sub_0_r, list_lookup_fmap.
  case_decide as Hi; [done|].
  rewrite lookup_empty. rewrite (lookup_ge_None_2 (logins self) i); [done|lia].
Qed.

(** X10: every request of the login resolution goes to [user.search] of
    the configured base and carries the configured logins, the [i]-th
    under [constraints[usernames][i]] and no other position, besides
    the token, the limit and the cursor. *)
Theorem login_phids_requests (fuel : nat) (w : World) :
  ∃ new,
    posted (login_phids fuel w).2 = posted w ++ new
    ∧ Forall (λ r,
        req_url r = url (phabricator w) +:+ "/user.search"
        ∧ (∀ i : nat,
             req_data r !! indexed_key "constraints[usernames]" i
             = JStr <$> logins (phabricator w) !! i)
        ∧ (∀ k v,
             req_data r !! k = Some v →
             k = "after" ∨ k = "limit" ∨ k = "api.token"
             ∨ ∃ i : nat, k = indexed_key "constraints[usernames]" i))
        new.
Proof.
  destruct (login_phids_page_of fuel w) as [_ (new & Hp & Hnew)].
  exists new. split; [exact Hp|].
  eapply Forall_impl; [exact Hnew|]. intros r [Hurl Hdata].
  split; [exact Hurl|]. split.
  - intros i. rewrite Hdata by key_ne. rewrite prepared_lookup.
    rewrite decide_False by key_ne. rewrite decide_False by key_ne.
    apply usernames_data_dict_lookup.
  - intros k v Hk.
    destruct (decide (k = "after")) as [|Hafter]; [auto|].
    rewrite Hdata, prepared_lookup in Hk by done.
    case_decide; [auto|]. case_decide; [auto|].
    apply set_indexed_dom in Hk as [?|Hk]; [auto 6|].
    by rewrite lookup_empty in Hk.
Qed.

Lemma login_phids_keeps_cache_unless_ok (fuel : nat) (w : World) :
  match (login_phids fuel w).1 with
  | Ok phids => _login_phids (phabricator (login_phids fuel w).2) = Some phids
  | _ => phabricator (login_phids fuel w).2 = phabricator w
  end.
Proof.
  destruct (login_phids fuel w) as [[phids|e|] w'] eqn:Hrun; cbn [fst snd].
  { by eapply login_phids_stored. }
  all: revert Hrun; unfold login_phids; rewrite get_bind;
    destruct (_login_phids (phabricator w)) as [[|phid cached]|];
    try discriminate.
  all: unfold Run.bind, Run.lift;
    pose proof (get_all_pages_keeps_investigator fuel
      (url (phabricator w) +:+ "/user.search")
      (Some (set_indexed "constraints[usernames]" 0
               (JStr <$> logins (phabricator w)) ∅)) w) as Hkeep;
    destruct (_get_all_pages _ _ _ w) as [[results|e'|] w1];
    cbn [snd] in Hkeep;
    [destruct (Res.mapM _ results) as [l|e'|]; cbn|..];
    try discriminate; intros Heq; simplify_eq; exact Hkeep.
Qed.

(** X11: the cache is written on success only: an access that raises (or
    does not return) leaves the Investigator as it was, so the next
    access resolves again; an access that returns has stored what it
    returns. *)
Theorem login_phids_cache_written_on_success_only (fuel : nat) (w : World) :
  match (login_phids fuel w).1 with
  | Ok phids => _login_phids (phabricator (login_phids fuel w).2) = Some phids
  | Raise _ | OutOfFuel => phabricator (login_phids fuel w).2 = phabricator w
  end
  ∧ same_config (phabricator w) (phabricator (login_phids fuel w).2)
  ∧ keeps_stats w (login_phids fuel w).2
  ∧ stdout (login_phids fuel w).2 = stdout w.
Proof.
  split; [apply login_phids_keeps_cache_unless_ok|].
  split; [apply (login_phids_posts fuel w)|].
  split; [apply login_phids_keeps_stats|apply login_phids_keeps_stdout].
Qed.

(** X12: with nothing cached, the identifiers are the [phid] fields of
    the user records the server returns, in the server's page order;
    they are stored in the cache.  A record without [phid] raises and
    stores nothing. *)
Theorem login_phids_resolves_in_server_order (fuel : nat) (w : World)
    (pages : list (list json)) :
  _login_phids (phabricator w) = Some [] ∨ _login_phids (phabricator w) = None →
  serves (url (phabricator w) +:+ "/user.search") (token (phabricator w))
    (posted w) (<["after" := JNull]> (usernames_data_dict (phabricator w)))
    pages →
  (length pages ≤ fuel)%nat →
  ∃ w1,
    _get_all_pages fuel (url (phabricator w) +:+ "/user.search")
      (Some (usernames_data_dict (phabricator w))) w
    = (Ok (concat pages), w1)
    ∧ login_phids fuel w
      = match Res.mapM (λ user, py_getitem user "phid") (concat pages) with
        | Ok phids => (Ok phids, set_login_phids phids w1)
        | Raise e => (Raise e, w1)
        | OutOfFuel => (OutOfFuel, w1)
        end.
Proof.
  intros Hcache Hserves Hfuel.
  destruct (get_all_pages_loop_serves _ _ _ _ _ Hserves fuel w [])
    as (w1 & Hrun & _ & _); [done..|].
  exists w1. split; [exact Hrun|].
  unfold login_phids. rewrite get_bind.
  unfold usernames_data_dict, _get_all_pages in *.
  change (default ∅ (Some ?x)) with x in Hrun.
  destruct Hcache as [-> | ->]; unfold Run.bind at 1;
    unfold _get_all_pages; change (default ∅ (Some ?x)) with x;
    rewrite Hrun; cbn [app]; unfold Run.bind, Run.lift;
    destruct (Res.mapM _ (concat pages)); reflexivity.
Qed.
End LoginExtras.

(** ** More on the differential search and the record models *)

Section SearchDiffsExtras.
Context `{!Runtime}.

(** X13: the mapping of the differential search, key by key: position
    [i] of the author-identifier family holds the [i]-th reviewer
    identifier when there is one, else the [i]-th author identifier,
    and is absent beyond both lists (an empty list constrains
    nothing); the two creation-date keys hold the [strftime("%s")] of
    the bounds that are given; there is no other key. *)
Theorem search_diffs_data_dict_lookup (since until : option date)
    (author_phids reviewer_phids : option (list json)) :
  let data_dict :=
    search_diffs_data_dict since until author_phids reviewer_phids in
  (∀ i : nat,
     data_dict !! indexed_key "constraints[authorPHIDs]" i
     = match nth_phid reviewer_phids i with
       | Some phid => Some phid
       | None => nth_phid author_phids i
       end)
  ∧ data_dict !! "constraints[createdStart]" = JStr ∘ strftime_s <$> since
  ∧ data_dict !! "constraints[createdEnd]" = JStr ∘ strftime_s <$> until
  ∧ (∀ k v,
       data_dict !! k = Some v →
       (∃ i : nat, k = indexed_key "constraints[authorPHIDs]" i)
       ∨ k = "constraints[createdStart]" ∨ k = "constraints[createdEnd]").
Proof.
  cbv zeta. unfold search_diffs_data_dict.
  split; [|split; [|split]].
  - intros i.
    destruct until; [rewrite lookup_insert_ne by key_ne|];
      (destruct since; [rewrite lookup_insert_ne by key_ne|]);
      destruct reviewer_phids as [reviewers|], author_phids as [authors|];
      cbn [nth_phid mbind option_bind];
      rewrite ?set_indexed_lookup, ?Nat.sub_0_r, ?lookup_empty;
      repeat case_decide;
      repeat match goal with
        | |- context [?l !! i] =>
            lazymatch l with
            | _ => destruct (l !! i) eqn:?
            end
        end;
      try done;
      repeat match goal with
        | H : _ !! i = Some _ |- _ => apply lookup_lt_Some in H
        | H : _ !! i = None |- _ => apply lookup_ge_None in H
        end; lia.
  - destruct until; [rewrite lookup_insert_ne by done|];
      (destruct since; [by rewrite lookup_insert_eq|]);
      (destruct reviewer_phids; [rewrite set_indexed_lookup_ne by key_ne|]);
      (destruct author_phids; [rewrite set_indexed_lookup_ne by key_ne|]);
      done.
  - destruct until; [by rewrite lookup_insert_eq|];
      (destruct since; [rewrite lookup_insert_ne by done|]);
      (destruct reviewer_phids; [rewrite set_indexed_lookup_ne by key_ne|]);
      (destruct author_phids; [rewrite set_indexed_lookup_ne by key_ne|]);
      done.
  - intros k v.
    destruct until; [rewrite lookup_insert; case_decide; [auto|]|];
      (destruct since; [rewrite lookup_insert; case_decide; [auto|]|]);
      intros Hk;
      (destruct reviewer_phids;
       [apply set_indexed_dom in Hk as [?|Hk]; auto|]);
      (destruct author_phids;
       [apply set_indexed_dom in Hk as [?|Hk]; auto|]);
      by rewrite lookup_empty in Hk.
Qed.
End SearchDiffsExtras.

Section RecordExtras.
Context `{!Runtime}.
Import EventType.

Lemma new_differentials_outcome (verbose : bool) (records : list json) :
  ∀ w : World,
    (Run.mapM (λ diff, Run.bind new_id (λ self,
                 Run.lift (Differential.init self diff verbose))) records w).1
    = differentials_of verbose (next_id w) records.
Proof.
  induction records as [|record records IH]; intros w; [done|].
  cbn [Run.mapM differentials_of]. unfold Run.bind at 1. unfold Run.bind at 1.
  cbn [new_id]. unfold Run.lift at 1.
  destruct (Differential.init (next_id w) record verbose) as [d| |];
    try reflexivity.
  cbn [Res.bind]. unfold Run.bind at 1.
  match goal with
  | |- context [Run.mapM ?f records ?w1] =>
      specialize (IH w1); destruct (Run.mapM f records w1) as [[ds|e|] w2]
  end; cbn [fst snd next_id] in *; by rewrite <- IH.
Qed.

Lemma init_data (self : nat) (data : json) (verbose : bool) (d : Differential.t) :
  Differential.init self data verbose = Ok d → Differential._data d = data.
Proof.
  unfold Differential.init. destruct verbose.
  - destruct (py_getitem data "fields") as [fields| |]; try discriminate.
    cbn [Res.bind].
    destruct (py_getitem fields "uri"); try discriminate. cbn [Res.bind].
    destruct (py_getitem fields "title"); try discriminate. cbn [Res.bind].
    by intros [= <-].
  - destruct (py_getitem data "id"); try discriminate. cbn [Res.bind].
    destruct (py_getitem data "fields") as [fields| |]; try discriminate.
    cbn [Res.bind].
    destruct (py_getitem fields "title"); try discriminate. cbn [Res.bind].
    by intros [= <-].
Qed.

Lemma differentials_of_ok (verbose : bool) (records : list json) :
  ∀ (first : nat) (diffs : list Differential.t),
    differentials_of verbose first records = Ok diffs →
    Differential._data <$> diffs = records
    ∧ Differential.oid <$> diffs = seq first (length records).
Proof.
  induction records as [|record records IH]; intros first diffs.
  { by intros [= <-]. }
  cbn [differentials_of].
  destruct (Differential.init first record verbose) as [d| |] eqn:Hd;
    try discriminate. cbn [Res.bind].
  destruct (differentials_of verbose (S first) records) as [ds| |] eqn:Hds;
    try discriminate. cbn [Res.bind]. intros [= <-].
  destruct (IH _ _ Hds) as [Hdata Hoid].
  cbn [fmap list_fmap length seq]. split; f_equal; try done.
  - by eapply init_data.
  - by eapply init_oid.
Qed.

(** X14: the differential search wraps the records of its fetch, one
    Differential per record, in the order the server returned them;
    a record that cannot be wrapped fails the whole search. *)
Theorem search_diffs_wraps_records (fuel : nat) (verbose : bool)
    (since until : option date)
    (author_phids reviewer_phids : option (list json))
    (w : World) (pages : list (list json)) :
  serves (url (phabricator w) +:+ "/differential.revision.search")
    (token (phabricator w)) (posted w)
    (<["after" := JNull]>
       (search_diffs_data_dict since until author_phids reviewer_phids))
    pages →
  (length pages ≤ fuel)%nat →
  (search_diffs fuel verbose since until author_phids reviewer_phids w).1
  = differentials_of verbose (next_id w) (concat pages)
  ∧ ∀ diffs,
      (search_diffs fuel verbose since until author_phids reviewer_phids w).1
      = Ok diffs →
      Differential._data <$> diffs = concat pages
      ∧ length diffs = length (concat pages)
      ∧ NoDup (Differential.oid <$> diffs).
Proof.
  intros Hserves Hfuel.
  assert (Hrun : (search_diffs fuel verbose since until author_phids
                    reviewer_phids w).1
                 = differentials_of verbose (next_id w) (concat pages)).
  { destruct (get_all_pages_loop_serves _ _ _ _ _ Hserves fuel w [])
      as (w1 & Hrun & _ & _); [done..|].
    assert (Hnext : next_id w1 = next_id w).
    { destruct (get_all_pages_loop_logs_only fuel
        (url (phabricator w) +:+ "/differential.revision.search")
        (<["after" := JNull]>
           (search_diffs_data_dict since until author_phids reviewer_phids))
        [] w) as [rs Hrs].
      rewrite Hrun in Hrs. cbn [snd] in Hrs. by subst w1. }
    unfold search_diffs. rewrite get_bind. unfold Run.bind at 1.
    unfold _get_all_pages. change (default ∅ (Some ?x)) with x.
    rewrite Hrun. cbn [app]. rewrite new_differentials_outcome.
    by rewrite Hnext. }
  split; [exact Hrun|]. intros diffs Hok. rewrite Hrun in Hok.
  destruct (differentials_of_ok _ _ _ _ Hok) as [Hdata Hoid].
  split; [exact Hdata|]. split.
  - by rewrite <- Hdata, length_fmap.
  - rewrite Hoid. apply NoDup_seq.
Qed.
End RecordExtras.

Section DisplayExtras.
Context `{!Runtime}.
Import EventType.

(** X15: the display string is chosen at construction: with the verbose
    flag it is the uri and the title, and the record needs no [id];
    without it, it is [D], the id and the title, and the record needs
    no [uri].  The record is kept as it is, and no [phid] is asked
    for. *)
Theorem differential_display_string (self : nat) (data fields title : json) :
  py_getitem data "fields" = Ok fields →
  py_getitem fields "title" = Ok title →
  (∀ uri,
     py_getitem fields "uri" = Ok uri →
     ∃ diff,
       Differential.init self data true = Ok diff
       ∧ Differential.__str__ diff = py_str uri +:+ " " +:+ py_str title
       ∧ Differential._data diff = data)
  ∧ (∀ id,
       py_getitem data "id" = Ok id →
       ∃ diff,
         Differential.init self data false = Ok diff
         ∧ Differential.__str__ diff
           = "D" +:+ py_str id +:+ " " +:+ py_str title
         ∧ Differential._data diff = data)
  ∧ (∀ e, py_getitem fields "uri" = Raise e →
          Differential.init self data true = Raise e)
  ∧ (∀ e, py_getitem data "id" = Raise e →
          Differential.init self data false = Raise e).
Proof.
  intros Hfields Htitle. unfold Differential.init.
  split; [|split; [|split]].
  - intros uri Huri. rewrite Hfields. cbn [Res.bind]. rewrite Huri.
    cbn [Res.bind]. rewrite Htitle. cbn [Res.bind]. eauto.
  - intros id Hid. rewrite Hid. cbn [Res.bind]. rewrite Hfields.
    cbn [Res.bind]. rewrite Htitle. cbn [Res.bind]. eauto.
  - intros e Huri. rewrite Hfields. cbn [Res.bind]. by rewrite Huri.
  - intros e Hid. by rewrite Hid.
Qed.

Lemma value_inj (k1 k2 : EventType.t) : value k1 = value k2 → k1 = k2.
Proof. destruct k1, k2; first [reflexivity | discriminate]. Qed.

Lemma is_type_true (ev : TransactionEvent.t) (kind : EventType.t) :
  TransactionEvent.is_type ev kind = true →
  (kind = UNDEFINED
   ∧ (TransactionEvent._type ev = JNull ∨ TransactionEvent._type ev = JStr ""))
  ∨ (kind ≠ UNDEFINED ∧ TransactionEvent._type ev = JStr (value kind)).
Proof.
  unfold TransactionEvent.is_type.
  destruct (decide (kind = UNDEFINED)) as [->|Hne].
  - destruct (is_none _ || py_eq_str _ "") eqn:Hor; [|discriminate].
    apply orb_true_iff in Hor. rewrite is_none_true, py_eq_str_true in Hor.
    auto.
  - rewrite py_eq_str_true. auto.
Qed.

(** X16: the kinds exclude each other: an event is of at most one
    kind. *)
Theorem event_kind_unique (ev : TransactionEvent.t) (k1 k2 : EventType.t) :
  TransactionEvent.is_type ev k1 = true →
  TransactionEvent.is_type ev k2 = true →
  k1 = k2.
Proof.
  intros H1 H2.
  apply is_type_true in H1 as [[-> H1]|[Hn1 H1]];
    apply is_type_true in H2 as [[-> H2]|[Hn2 H2]]; try done.
  - exfalso. destruct H1 as [H1|H1]; rewrite H1 in H2; [done|].
    injection H2 as H2. by destruct k2.
  - exfalso. destruct H2 as [H2|H2]; rewrite H2 in H1; [done|].
    injection H1 as H1. by destruct k1.
  - rewrite H1 in H2. injection H2 as H2. by apply value_inj.
Qed.

(** X17: the enumeration is closed over an open field: an event whose
    raw type is a string outside the thirteen values (or a value that
    is neither a string nor null) is of no kind, not even of the
    undefined one. *)
Theorem event_of_unlisted_type_has_no_kind (ev : TransactionEvent.t) :
  TransactionEvent._type ev ≠ JNull →
  (∀ kind, TransactionEvent._type ev ≠ JStr (value kind)) →
  ∀ kind, TransactionEvent.is_type ev kind = false.
Proof.
  intros Hnn Hnone kind.
  destruct (TransactionEvent.is_type ev kind) eqn:Htype; [|done].
  apply is_type_true in Htype as [[-> [Hraw|Hraw]]|[_ Hraw]].
  - done.
  - by destruct (Hnone UNDEFINED).
  - by destruct (Hnone kind).
Qed.

(** X18: an event is built from its [type] and [authorPHID] alone; the
    modification timestamp is read at every use.  On an event whose
    record has no [dateModified], the window test raises [KeyError]
    whatever the bounds, also with no bound at all, and so does the
    string conversion; the kind test still answers. *)
Theorem event_without_timestamp (fields : list (string * json))
    (type author : json) :
  assoc "type" fields = Some type →
  assoc "authorPHID" fields = Some author →
  assoc "dateModified" fields = None →
  ∃ ev,
    TransactionEvent.init (JObj fields) = Ok ev
    ∧ TransactionEvent.event_type ev = type
    ∧ TransactionEvent.author_phid ev = author
    ∧ (∀ since until,
         TransactionEvent.is_in_date_range ev since until
         = Raise (KeyError "dateModified"))
    ∧ TransactionEvent.__str__ ev = Raise (KeyError "dateModified")
    ∧ (∀ kind, kind ≠ UNDEFINED →
         TransactionEvent.is_type ev kind = py_eq_str type (value kind)).
Proof.
  intros Htype Hauthor Hstamp. eexists.
  unfold TransactionEvent.init. cbn [py_getitem]. rewrite Htype, Hauthor.
  cbn [Res.bind]. split; [reflexivity|]. split; [reflexivity|].
  split; [reflexivity|].
  unfold TransactionEvent.is_in_date_range, TransactionEvent.__str__.
  cbn [TransactionEvent._data py_getitem]. rewrite Hstamp.
  split; [done|]. split; [done|].
  intros kind Hkind. unfold TransactionEvent.is_type.
  by rewrite decide_False by done.
Qed.

End DisplayExtras.

(** ** The transaction search *)

Section TransactionsExtras.
Context `{!Runtime}.

Lemma search_transactions_page_of (fuel : nat) (diff_phid : json)
    (author_phids : option (list json)) (w : World) :
  posts (page_of (url (phabricator w) +:+ "/transaction.search")
           (transactions_data_dict diff_phid author_phids))
    w (search_transactions fuel diff_phid author_phids w).2.
Proof.
  unfold search_transactions, transactions_data_dict. rewrite get_bind.
  generalize (url (phabricator w)). intros u0. revert w.
  apply preserves_bind; [apply _|apply get_all_pages_posts|].
  intros events. apply preserves_lift, _.
Qed.

Lemma transactions_data_dict_lookup (diff_phid : json)
    (author_phids : option (list json)) :
  transactions_data_dict diff_phid author_phids !! "objectIdentifier"
  = Some diff_phid
  ∧ (∀ i : nat,
       transactions_data_dict diff_phid author_phids
         !! indexed_key "constraints[authorPHIDs]" i
       = nth_phid author_phids i)
  ∧ (∀ k v,
       transactions_data_dict diff_phid author_phids !! k = Some v →
       k = "objectIdentifier"
       ∨ ∃ i : nat, k = indexed_key "constraints[authorPHIDs]" i).
Proof.
  unfold transactions_data_dict. split; [|split].
  - destruct author_phids; [rewrite set_indexed_lookup_ne by key_ne|];
      by rewrite lookup_insert_eq.
  - intros i. destruct author_phids as [phids|]; cbn [nth_phid mbind option_bind].
    + rewrite set_indexed_lookup, Nat.sub_0_r.
      case_decide as Hi; [done|].
      rewrite lookup_insert_ne by key_ne. rewrite lookup_empty.
      symmetry. apply lookup_ge_None. lia.
    + by rewrite lookup_insert_ne by key_ne.
  - intros k v Hk. destruct author_phids as [phids|].
    + apply set_indexed_dom in Hk as [?|Hk]; [auto|].
      rewrite lookup_insert in Hk. case_decide; [auto|done].
    + rewrite lookup_insert in Hk. case_decide; [auto|done].
Qed.

(** X19: every request of the transaction search goes to
    [transaction.search] of the configured base and names the object
    under [objectIdentifier]; the author identifiers, when given, sit
    under [constraints[authorPHIDs][i]]; no date constraint is sent. *)
Theorem search_transactions_requests (fuel : nat) (diff_phid : json)
    (author_phids : option (list json)) (w : World) :
  ∃ new,
    posted (search_transactions fuel diff_phid author_phids w).2
    = posted w ++ new
    ∧ Forall (λ r,
        req_url r = url (phabricator w) +:+ "/transaction.search"
        ∧ req_data r !! "objectIdentifier" = Some diff_phid
        ∧ (∀ i : nat,
             req_data r !! indexed_key "constraints[authorPHIDs]" i
             = nth_phid author_phids i)
        ∧ (∀ k v,
             req_data r !! k = Some v →
             k = "after" ∨ k = "limit" ∨ k = "api.token"
             ∨ k = "objectIdentifier"
             ∨ ∃ i : nat, k = indexed_key "constraints[authorPHIDs]" i))
        new.
Proof.
  destruct (search_transactions_page_of fuel diff_phid author_phids w)
    as [_ (new & Hp & Hnew)].
  destruct (transactions_data_dict_lookup diff_phid author_phids)
    as (Hobj & Hauthors & Hdom).
  exists new. split; [exact Hp|].
  eapply Forall_impl; [exact Hnew|]. intros r [Hurl Hdata].
  split; [exact Hurl|]. split; [|split].
  - rewrite Hdata by done. rewrite prepared_lookup.
    rewrite decide_False by done. by rewrite decide_False by done.
  - intros i. rewrite Hdata by key_ne. rewrite prepared_lookup.
    rewrite decide_False by key_ne. by rewrite decide_False by key_ne.
  - intros k v Hk.
    destruct (decide (k = "after")) as [|Hafter]; [auto|].
    rewrite Hdata, prepared_lookup in Hk by done.
    case_decide; [auto|]. case_decide; [auto|].
    apply Hdom in Hk as [?|?]; auto 6.
Qed.

Lemma events_of_records (records : list json) :
  ∀ events,
    Res.mapM TransactionEvent.init records = Ok events →
    Forall2 (λ ev record,
               TransactionEvent._data ev = record
               ∧ py_getitem record "type" = Ok (TransactionEvent._type ev)
               ∧ py_getitem record "authorPHID"
                 = Ok (TransactionEvent._author_phid ev))
      events records.
Proof.
  induction records as [|record records IH]; intros events.
  { intros [= <-]. constructor. }
  cbn [Res.mapM]. unfold TransactionEvent.init at 1.
  destruct (py_getitem record "type") as [type| |] eqn:Htype;
    try discriminate. cbn [Res.bind].
  destruct (py_getitem record "authorPHID") as [author| |] eqn:Hauthor;
    try discriminate. cbn [Res.bind].
  destruct (Res.mapM TransactionEvent.init records) as [evs| |];
    try discriminate. cbn [Res.bind]. intros [= <-].
  constructor; [done|]. by apply IH.
Qed.

(** X20: the transaction search returns one event per record of its
    fetch, in the order the server returned them, each with the [type]
    and [authorPHID] of its record; the events are not filtered, and a
    record without one of the two keys fails the whole search. *)
Theorem search_transactions_wraps_records (fuel : nat) (diff_phid : json)
    (author_phids : option (list json)) (w : World)
    (pages : list (list json)) :
  serves (url (phabricator w) +:+ "/transaction.search")
    (token (phabricator w)) (posted w)
    (<["after" := JNull]> (transactions_data_dict diff_phid author_phids))
    pages →
  (length pages ≤ fuel)%nat →
  (search_transactions fuel diff_phid author_phids w).1
  = Res.mapM TransactionEvent.init (concat pages)
  ∧ ∀ events,
      (search_transactions fuel diff_phid author_phids w).1 = Ok events →
      Forall2 (λ ev record,
                 TransactionEvent._data ev = record
                 ∧ py_getitem record "type" = Ok (TransactionEvent._type ev)
                 ∧ py_getitem record "authorPHID"
                   = Ok (TransactionEvent._author_phid ev))
        events (concat pages).
Proof.
  intros Hserves Hfuel.
  assert (Hrun : (search_transactions fuel diff_phid author_phids w).1
                 = Res.mapM TransactionEvent.init (concat pages)).
  { destruct (get_all_pages_loop_serves _ _ _ _ _ Hserves fuel w [])
      as (w1 & Hrun & _ & _); [done..|].
    unfold search_transactions. rewrite get_bind. unfold Run.bind at 1.
    unfold _get_all_pages, transactions_data_dict in *.
    change (default ∅ (Some ?x)) with x.
    destruct author_phids; rewrite Hrun; reflexivity. }
  split; [exact Hrun|]. intros events Hok. rewrite Hrun in Hok.
  by apply events_of_records.
Qed.
End TransactionsExtras.

(** ** More on the "Commented" assembler *)

Section CommentedExtras.
Context `{!Runtime}.

Lemma for_events_keeps_stats (options : Options) (diff : Differential.t)
    (events : list TransactionEvent.t)
    (commented_diffs closed_diffs : list Differential.t) :
  preserves keeps_stats
    (for_events options diff events commented_diffs closed_diffs).
Proof.
  revert commented_diffs closed_diffs.
  induction events as [|event events IH]; intros commented_diffs closed_diffs;
    cbn [for_events].
  - apply preserves_ret, _.
  - repeat first [ apply IH | apply print_keeps_stats | preserve_step ].
Qed.

Lemma for_diffs_keeps_stats (fuel : nat) (options : Options)
    (diffs commented_diffs closed_diffs : list Differential.t) :
  preserves keeps_stats
    (for_diffs fuel options diffs commented_diffs closed_diffs).
Proof.
  revert commented_diffs closed_diffs.
  induction diffs as [|diff diffs IH]; intros commented_diffs closed_diffs;
    cbn [for_diffs].
  - apply preserves_ret, _.
  - repeat first
      [ apply IH | apply for_events_keeps_stats
      | apply search_transactions_keeps_stats | apply login_phids_keeps_stats
      | preserve_step ].
Qed.

(** X21: the "Commented" assembler stores its result at the very end and
    only there: a fetch that raises (or does not return) leaves its
    [stats] as they were, with nothing of a partial result, and no
    fetch touches the [stats] of the two other assemblers. *)
Theorem commented_fetch_stores_on_success_only (fuel : nat)
    (options : Options) (w : World) :
  let run := DifferentialsCommented_fetch fuel options w in
  match run.1 with
  | Ok _ => True
  | Raise _ | OutOfFuel => commented_stats run.2 = commented_stats w
  end
  ∧ created_stats run.2 = created_stats w
  ∧ reviewed_stats run.2 = reviewed_stats w.
Proof.
  cbv zeta. unfold DifferentialsCommented_fetch.
  assert (Hsearch : preserves keeps_stats
    (Run.bind (login_phids fuel) (λ author_phids,
       Run.bind (search_diffs fuel (verbose options) (since options)
                   (until options) (Some author_phids) None)
         (λ diffs, for_diffs fuel options diffs [] [])))).
  { repeat first
      [ apply for_diffs_keeps_stats | apply search_diffs_keeps_stats
      | apply login_phids_keeps_stats | preserve_step ]. }
  specialize (Hsearch w). revert Hsearch.
  unfold Run.bind.
  destruct (login_phids fuel w) as [[author_phids|e|] w0];
    cbn [fst snd]; [|by intros (?&?&?)..].
  destruct (search_diffs _ _ _ _ _ _ w0) as [[diffs|e|] w1];
    cbn [fst snd]; [|by intros (?&?&?)..].
  destruct (for_diffs _ _ _ _ _ w1) as [[lists|e|] w2];
    cbn [fst snd]; [|by intros (?&?&?)..].
  by intros (?&?&?).
Qed.
End CommentedExtras.

Section PrintExtras.
Context `{!Runtime}.

Lemma search_transactions_keeps_stdout (fuel : nat) (diff_phid : json)
    (author_phids : option (list json)) :
  preserves keeps_stdout (search_transactions fuel diff_phid author_phids).
Proof.
  unfold search_transactions.
  repeat first [ apply get_all_pages_keeps_stdout | preserve_step ].
Qed.

Lemma search_diffs_keeps_stdout (fuel : nat) (verbose : bool)
    (since until : option date)
    (author_phids reviewer_phids : option (list json)) :
  preserves keeps_stdout
    (search_diffs fuel verbose since until author_phids reviewer_phids).
Proof.
  unfold search_diffs.
  repeat first [ apply get_all_pages_keeps_stdout | preserve_step ];
    by intros ?.
Qed.

Lemma fetched_stdout (fuel : nat) (options : Options) (w : World)
    (diffs : list Differential.t) (eventss : list (list TransactionEvent.t))
    (w' : World) :
  fetched fuel options w diffs eventss w' →
  stdout w'
  = stdout w
    ++ replicate (length (out_of_window options (concat eventss))) "out of date".
Proof.
  induction 1 as [w|w diff diffs diff_phid author_phids w1 events w2 eventss
                    w3 Hphid Hlogin Hsearch Hdated _ IH].
  { cbn. by rewrite app_nil_r. }
  rewrite IH. cbn [printed stdout concat].
  pose proof (login_phids_keeps_stdout fuel w) as H1.
  pose proof (search_transactions_keeps_stdout fuel diff_phid
                (Some author_phids) w1) as H2.
  rewrite Hlogin in H1. rewrite Hsearch in H2. cbn [snd] in H1, H2.
  unfold keeps_stdout in *. rewrite H2, H1.
  unfold out_of_window. rewrite filter_app, length_app, replicate_add.
  by rewrite app_assoc.
Qed.

(** X25: the "Commented" assembler prints: a run that returns has
    written the line [out of date] to the standard output once for
    every fetched event that falls outside the window, and nothing
    else. *)
Theorem commented_fetch_prints (fuel : nat) (options : Options)
    (w : World) (author_phids : list json) (w0 : World)
    (diffs : list Differential.t) (w1 : World)
    (eventss : list (list TransactionEvent.t)) (w2 : World) :
  login_phids fuel w = (Ok author_phids, w0) →
  search_diffs fuel (verbose options) (since options) (until options)
    (Some author_phids) None w0 = (Ok diffs, w1) →
  fetched fuel options w1 diffs eventss w2 →
  ∃ w3,
    DifferentialsCommented_fetch fuel options w = (Ok tt, w3)
    ∧ stdout w3
      = stdout w
        ++ replicate (length (out_of_window options (concat eventss)))
             "out of date".
Proof.
  intros Hlogin Hsearch Hfetched. unfold DifferentialsCommented_fetch.
  unfold Run.bind at 1. rewrite Hlogin.
  unfold Run.bind at 1. rewrite Hsearch.
  unfold Run.bind at 1.
  destruct (for_diffs_run _ _ _ _ _ _ Hfetched [] []) as [cl ->].
  eexists. split; [reflexivity|]. cbn [set_commented_stats Run.modify snd stdout].
  rewrite (fetched_stdout _ _ _ _ _ _ Hfetched).
  pose proof (login_phids_keeps_stdout fuel w) as H1.
  pose proof (search_diffs_keeps_stdout fuel (verbose options) (since options)
                (until options) (Some author_phids) None w0) as H2.
  rewrite Hlogin in H1. rewrite Hsearch in H2. cbn [snd] in H1, H2.
  unfold keeps_stdout in *. by rewrite H2, H1.
Qed.
End PrintExtras.

(** ** The configuration of the stats group *)

Section ConfigExtras.

Lemma split_comma_cons (s : string) :
  ∃ field fields, split_comma s = field :: fields.
Proof.
  induction s as [|c s (field & fields & IH)]; cbn; [eauto|].
  destruct (Ascii.eqb c ","); [eauto|]. rewrite IH. eauto.
Qed.

Lemma join_comma_cons (field field' : string) (fields : list string) :
  join_comma (field :: field' :: fields)
  = field +:+ "," +:+ join_comma (field' :: fields).
Proof. reflexivity. Qed.

(** X22: splitting at the commas loses nothing: there is one field more
    than there are commas (so never no field, also for the empty
    string), no field holds a comma, and joining the fields with
    commas gives the string back. *)
Theorem split_comma_join (s : string) :
  join_comma (split_comma s) = s
  ∧ length (split_comma s) = S (commas s)
  ∧ Forall (λ field, commas field = 0%nat) (split_comma s).
Proof.
  induction s as [|c s (Hjoin & Hlen & Hfields)]; [by repeat constructor|].
  cbn [split_comma commas].
  destruct (split_comma_cons s) as (field & fields & Hs).
  rewrite Hs in *.
  destruct (Ascii.eqb_spec c ","%char) as [->|Hc].
  - split; [|split].
    + rewrite join_comma_cons. by rewrite Hjoin.
    + cbn [length] in *. by rewrite Hlen.
    + by constructor.
  - split; [|split].
    + destruct fields as [|field' fields].
      * cbn [join_comma] in *. by rewrite Hjoin.
      * rewrite join_comma_cons in *. by rewrite <- Hjoin.
    + cbn [length] in *. by rewrite Hlen.
    + apply Forall_cons in Hfields as [Hfield Hfields].
      constructor; [|done]. cbn [commas].
      destruct (Ascii.eqb_spec c ","%char); [done|]. by rewrite Hfield.
Qed.

Variable get_token : gmap string string → option string.
Variable str_strip : string → string.

(** X23: the stats group is configured exactly when the section has a
    url, a token and a login option; the checks come in this order.
    The Investigator then has the url of the section without its
    trailing slashes, the token, one login per comma-separated field
    of the option (stripped), and nothing cached.  The list of logins
    is never empty, so the empty-login error is never raised: an empty
    option gives the one login [strip("")]. *)
Theorem stats_group_configuration (option : string)
    (config : gmap string string) :
  match PhabricatorStats_init get_token str_strip option config with
  | Configured investigator =>
      ∃ config_url config_token login,
        config !! "url" = Some config_url
        ∧ get_token config = Some config_token
        ∧ config !! "login" = Some login
        ∧ url investigator = rstrip_slash config_url
        ∧ token investigator = config_token
        ∧ logins investigator = str_strip <$> split_comma login
        ∧ length (logins investigator) = S (commas login)
        ∧ _login_phids investigator = Some []
  | ConfigError msg =>
      (config !! "url" = None
       ∧ msg = "No phabricator url set in the [" +:+ option +:+ "] section")
      ∨ (is_Some (config !! "url") ∧ get_token config = None
         ∧ msg = "No token or token_file set in the [" +:+ option
                 +:+ "] section")
      ∨ (is_Some (config !! "url") ∧ is_Some (get_token config)
         ∧ config !! "login" = None
         ∧ msg = "No login set in the [" +:+ option +:+ "] section")
  end.
Proof.
  unfold PhabricatorStats_init.
  destruct (config !! "url") as [config_url|]; [|auto].
  destruct (get_token config) as [config_token|]; [|right; left; eauto].
  destruct (config !! "login") as [login|]; [|right; right; eauto].
  destruct (split_comma_cons login) as (field & fields & Hs).
  rewrite bool_decide_eq_false_2 by (by rewrite Hs).
  exists config_url, config_token, login. cbn.
  repeat split; try done.
  rewrite length_fmap. apply split_comma_join.
Qed.
End ConfigExtras.

Section UrlExtras.

Lemma append_cons (a : ascii) (s t : string) :
  String a s +:+ t = String a (s +:+ t).
Proof. reflexivity. Qed.

Lemma append_nil_r (s : string) : s +:+ "" = s.
Proof.
  induction s as [|a s IH]; [done|]. by rewrite append_cons, IH.
Qed.

Lemma append_assoc (s t r : string) : (s +:+ t) +:+ r = s +:+ (t +:+ r).
Proof.
  induction s as [|a s IH]; [done|]. by rewrite !append_cons, IH.
Qed.

Lemma slashes_snoc (n : nat) : slashes (S n) = slashes n +:+ "/".
Proof.
  induction n as [|n IH]; [done|].
  change (slashes (S (S n))) with (String "/" (slashes (S n))).
  rewrite IH at 1. reflexivity.
Qed.

Lemma rstrip_slash_spec (s : string) :
  (∃ n, s = rstrip_slash s +:+ slashes n)
  ∧ ∀ s', rstrip_slash s ≠ s' +:+ "/".
Proof.
  induction s as [|a s [[n Hn] Hno]].
  { split; [by exists 0%nat|]. intros s' Heq. by destruct s'. }
  cbn [rstrip_slash].
  destruct (rstrip_slash s) as [|b r] eqn:Hr.
  - cbn [String.append] in Hn. subst s.
    destruct (Ascii.eqb_spec a "/"%char) as [->|Ha].
    + split; [by exists (S n)|]. intros s' Heq. by destruct s'.
    + split; [by exists n|]. intros [|c s'] Heq; cbn in Heq.
      * by injection Heq.
      * injection Heq as _ Heq. by destruct s'.
  - split.
    + exists n. cbn [String.append]. by rewrite Hn at 1.
    + intros [|c s'] Heq; cbn in Heq; [done|].
      injection Heq as _ Heq. by apply (Hno s').
Qed.

(** X24: the Investigator keeps the base url without its trailing
    slashes: what was cut off is slashes only, and what is kept does
    not end in one, so the endpoint paths it appends start at exactly
    one slash.  A new Investigator has nothing cached. *)
Theorem investigator_url_has_no_trailing_slash (u tok : string)
    (names : list string) :
  let self := Phabricator_init u tok names in
  (∃ n, u = url self +:+ slashes n)
  ∧ (∀ s, url self ≠ s +:+ "/")
  ∧ url (Phabricator_init (url self) tok names) = url self
  ∧ token self = tok ∧ logins self = names ∧ _login_phids self = Some [].
Proof.
  cbv zeta. cbn [Phabricator_init url token logins _login_phids].
  destruct (rstrip_slash_spec u) as [Hcut Hno].
  split; [exact Hcut|]. split; [exact Hno|]. split; [|done].
  destruct (rstrip_slash_spec (rstrip_slash u)) as [[n Hn] _].
  destruct n as [|n].
  - cbn [slashes] in Hn. by rewrite append_nil_r in Hn.
  - exfalso. apply (Hno (rstrip_slash (rstrip_slash u) +:+ slashes n)).
    by rewrite append_assoc, <- slashes_snoc.
Qed.
End UrlExtras.

(** * The properties at concrete inputs *)

(** C1 at [two_pages]: the fetch returns the three records, in order,
    after two requests. *)
Lemma get_all_pages_concat_witness :
  ∃ w', @_get_all_pages two_pages 2 "u" (Some ∅) world0
        = (Ok [JNum 1; JNum 2; JNum 3], w')
        ∧ length [JNum 1; JNum 2; JNum 3] = (2 + 1)%nat
        ∧ length (posted w') = (length (posted world0) + 2)%nat
        ∧ phabricator w' = phabricator world0.
Proof.
  refine (proj1 (@get_all_pages_concat two_pages "u" (Some ∅) world0
                   [[JNum 1; JNum 2]; [JNum 3]] 2 _ _)).
  - eapply serves_next
      with (res := page [JNum 1; JNum 2] (Some (JStr "X"))) (after := JStr "X").
    + reflexivity.
    + split; [reflexivity|]. eexists. split; reflexivity.
    + eexists. split; [reflexivity|]. split; [reflexivity|discriminate].
    + eapply serves_last with (res := page [JNum 3] (Some JNull)).
      * reflexivity.
      * split; [reflexivity|]. eexists. split; reflexivity.
      * right. eexists. split; reflexivity.
  - simpl. lia.
Defined.

(** C3 at [one_login]: after the first access, later accesses return
    the identifier from the cache, whatever their fuel. *)
Lemma login_phids_cached_witness :
  let w1 := (@login_phids one_login 5 world0).2 in
  @login_phids one_login 0 w1 = (Ok [JStr "PHID-USER-a"], w1)
  ∧ @login_phids one_login 5 w1 = (Ok [JStr "PHID-USER-a"], w1).
Proof.
  cbv zeta.
  assert (Hlater := proj1 (@login_phids_cached one_login 5 world0
                             [JStr "PHID-USER-a"]
                             (@login_phids one_login 5 world0).2 eq_refl)).
  split; apply Hlater; discriminate.
Defined.

(** C4 at two reviewers and one author: the reviewers take the
    author-identifier keys. *)
Lemma search_diffs_reviewers_under_author_keys_witness :
  let data_dict :=
    @search_diffs_data_dict (scripted []) (Some 10) None
      (Some [JStr "PHID-USER-a"])
      (Some [JStr "PHID-USER-r1"; JStr "PHID-USER-r2"]) in
  data_dict !! "constraints[authorPHIDs][0]" = Some (JStr "PHID-USER-r1")
  ∧ data_dict !! "constraints[authorPHIDs][1]" = Some (JStr "PHID-USER-r2")
  ∧ data_dict !! "constraints[reviewerPHIDs][0]" = None.
Proof.
  cbv zeta.
  destruct (@search_diffs_reviewers_under_author_keys (scripted [])
              (Some 10) None (Some [JStr "PHID-USER-a"])
              [JStr "PHID-USER-r1"; JStr "PHID-USER-r2"])
    as (Hpos & _ & _ & Hnone & _).
  - discriminate.
  - split; [apply (Hpos 0%nat); reflexivity|].
    split; [apply (Hpos 1%nat); reflexivity|apply (Hnone 0%nat)].
Defined.

(** C6 at [api_error]: the error description reaches the exception. *)
Lemma get_page_error_info_witness :
  (@_get_page api_error "u" (Some ∅) world0).1
  = Raise (RuntimeError
      "Phabricator error encountered: Session key is not present.").
Proof.
  refine (proj1 (@get_page_error_info api_error "u" (Some ∅) world0
                   (JObj [("result", JNull);
                          ("error_info", JStr "Session key is not present.")])
                   (JStr "Session key is not present.") _ _ _)).
  - reflexivity.
  - reflexivity.
  - discriminate.
Defined.

(** C7 at [event_day5]: inside the window [5, 5], outside from day 6
    on and up to day 4. *)
Lemma is_in_date_range_spec_witness :
  @TransactionEvent.is_in_date_range (scripted []) event_day5 (Some 5) (Some 5)
  = Ok true
  ∧ @TransactionEvent.is_in_date_range (scripted []) event_day5 (Some 6) None
    = Ok false
  ∧ @TransactionEvent.is_in_date_range (scripted []) event_day5 None (Some 4)
    = Ok false.
Proof.
  destruct (@is_in_date_range_spec (scripted []) event_day5 432001 5)
    as (_ & _ & _ & _ & Hsince & _ & Hbefore & Hafter).
  - reflexivity.
  - reflexivity.
  - split; [apply Hsince; lia|]. split; [apply Hbefore|apply Hafter].
Defined.

(** The three phases of the run of [commented_run]. *)
Lemma commented_run_login :
  @login_phids commented_run 5 world0 = (Ok [JStr "PHID-USER-a"], after_login).
Proof. vm_compute. reflexivity. Defined.

Lemma commented_run_search :
  @search_diffs commented_run 5 (verbose day5) (since day5) (until day5)
    (Some [JStr "PHID-USER-a"]) None after_login
  = (Ok [the_diff], after_search).
Proof. vm_compute. reflexivity. Defined.

Lemma commented_run_fetched :
  @fetched commented_run 5 day5 after_search [the_diff] [the_events]
    (@printed 1 after_transactions).
Proof.
  eapply (@fetched_cons commented_run 5 day5 after_search the_diff []
            (JStr "PHID-DREV-6vyv") [JStr "PHID-USER-a"] after_search
            the_events after_transactions []).
  - reflexivity.
  - vm_compute. reflexivity.
  - vm_compute. reflexivity.
  - repeat constructor; eexists; vm_compute; reflexivity.
  - apply fetched_nil.
Defined.

(** C5 at [commented_run]: the Differential is kept, for its comment
    on day 5. *)
Lemma commented_keeps_iff_qualifying_event_witness :
  ∃ w3,
    @DifferentialsCommented_fetch commented_run 5 day5 world0 = (Ok tt, w3)
    ∧ kept the_diff (commented_stats w3).
Proof.
  destruct (@commented_keeps_iff_qualifying_event commented_run 5 day5 world0
              [JStr "PHID-USER-a"] after_login [the_diff] after_search
              [the_events] (printed 1 after_transactions) 0 the_diff the_events
              commented_run_login commented_run_search commented_run_fetched
              eq_refl eq_refl)
    as (w3 & Hrun & Hiff & _).
  exists w3. split; [exact Hrun|]. apply Hiff.
  apply Exists_cons_hd. split; [vm_compute; reflexivity|].
  left. reflexivity.
Defined.

(** C10 at [commented_run]: the Differential is stored twice, once
    for its comment and once for its inline comment. *)
Lemma commented_once_per_qualifying_event_witness :
  ∃ w3,
    @DifferentialsCommented_fetch commented_run 5 day5 world0 = (Ok tt, w3)
    ∧ commented_stats w3 = [the_diff; the_diff]
    ∧ occurrences the_diff (commented_stats w3) = 2%nat.
Proof.
  exact (@commented_once_per_qualifying_event commented_run 5 day5 world0
           [JStr "PHID-USER-a"] after_login [the_diff] after_search
           [the_events] (printed 1 after_transactions) 0 the_diff the_events
           commented_run_login commented_run_search commented_run_fetched
           eq_refl eq_refl).
Defined.

(** ** Further properties at concrete inputs *)

Ltac served :=
  cbn [pages_served fst snd];
  repeat first [exact I | split | eexists | reflexivity | discriminate].

(** X1 at a connection that fails on the second page. *)
Lemma get_all_pages_transport_error_witness :
  (@_get_all_pages (then_response RequestException) 2 "u" (Some ∅) world0).1
  = Raise (ReportError "Phabricator search on u failed").
Proof.
  refine (f_equal fst
    (@get_all_pages_transport_error (then_response RequestException)
       "u" ∅ first_page world0 0 _ _)); [served|reflexivity].
Defined.

(** X2 at a second response with status 503 and a well-formed body. *)
Lemma get_all_pages_bad_status_witness :
  (@_get_all_pages (then_response (HttpResponse 503 (Some (page [] None))))
     2 "u" (Some ∅) world0).1
  = Raise (RuntimeError
      "Phabricator request exited with status code 503 rather than 200.").
Proof.
  refine (f_equal fst
    (@get_all_pages_bad_status
       (then_response (HttpResponse 503 (Some (page [] None))))
       "u" ∅ first_page world0 0 503 (Some (page [] None)) _ _ _));
    [served|reflexivity|discriminate].
Defined.

(** X3 at a second response whose body does not decode. *)
Lemma get_all_pages_unparseable_body_witness :
  (@_get_all_pages (then_response (HttpResponse 200 None))
     2 "u" (Some ∅) world0).1
  = Raise (ReportError "Phabricator failed to parse JSON response.").
Proof.
  refine (f_equal fst
    (@get_all_pages_unparseable_body (then_response (HttpResponse 200 None))
       "u" ∅ first_page world0 0 _ _)); [served|reflexivity].
Defined.

(** X4 at a second page with records and no [error_info]. *)
Lemma get_all_pages_missing_error_info_witness :
  (@_get_all_pages
     (then_response
        (HttpResponse 200 (Some (JObj [("result", JObj [("data", JList [])])]))))
     2 "u" (Some ∅) world0).1
  = Raise (KeyError "error_info").
Proof.
  refine (f_equal fst
    (@get_all_pages_missing_error_info
       (then_response
          (HttpResponse 200 (Some (JObj [("result", JObj [("data", JList [])])]))))
       "u" ∅ first_page world0 0 [("result", JObj [("data", JList [])])] _ _ _));
    [served|reflexivity|reflexivity].
Defined.

(** X5 at a second page without [result]. *)
Lemma get_all_pages_missing_result_witness :
  (@_get_all_pages
     (then_response (HttpResponse 200 (Some (JObj [("error_info", JNull)]))))
     2 "u" (Some ∅) world0).1
  = Raise (ReportError "Mising key Phabricator dict: result").
Proof.
  refine (f_equal fst
    (@get_all_pages_missing_result
       (then_response (HttpResponse 200 (Some (JObj [("error_info", JNull)]))))
       "u" ∅ first_page world0 0 [("error_info", JNull)] _ _ _ _));
    [served|reflexivity|reflexivity|reflexivity].
Defined.

(** X6 at a second page whose results container is empty. *)
Lemma get_all_pages_result_without_data_witness :
  (@_get_all_pages
     (then_response
        (HttpResponse 200
           (Some (JObj [("result", JObj []); ("error_info", JNull)]))))
     2 "u" (Some ∅) world0).1
  = Raise (KeyError "data").
Proof.
  refine (f_equal fst
    (@get_all_pages_result_without_data
       (then_response
          (HttpResponse 200
             (Some (JObj [("result", JObj []); ("error_info", JNull)]))))
       "u" ∅ first_page world0 0
       (JObj [("result", JObj []); ("error_info", JNull)]) [] _ _ _ _ _));
    [served|reflexivity..].
Defined.

(** X7 at a second page whose cursor container is empty. *)
Lemma get_all_pages_cursor_without_after_witness :
  (@_get_all_pages
     (then_response
        (HttpResponse 200
           (Some (JObj [("result", JObj [("data", JList [JNum 2])]);
                        ("cursor", JObj []); ("error_info", JNull)]))))
     2 "u" (Some ∅) world0).1
  = Raise (KeyError "after").
Proof.
  refine (f_equal fst
    (@get_all_pages_cursor_without_after
       (then_response
          (HttpResponse 200
             (Some (JObj [("result", JObj [("data", JList [JNum 2])]);
                          ("cursor", JObj []); ("error_info", JNull)]))))
       "u" ∅ first_page world0 0
       (JObj [("result", JObj [("data", JList [JNum 2])]);
              ("cursor", JObj []); ("error_info", JNull)])
       [JNum 2] [] _ _ _ _ _));
    [served|reflexivity|served|reflexivity|reflexivity].
Defined.

(** X8 at [two_pages]: the second request carries the cursor [X]. *)
Lemma get_all_pages_cursor_chain_witness :
  ∃ w',
    @_get_all_pages two_pages 2 "u" (Some ∅) world0
    = (Ok [JNum 1; JNum 2; JNum 3], w')
    ∧ posted w'
      = [cursor_request "u" "api-tok" ∅ JNull;
         cursor_request "u" "api-tok" ∅ (JStr "X")]
    ∧ phabricator w' = phabricator world0.
Proof.
  refine (@get_all_pages_cursor_chain two_pages "u" ∅
            [([JNum 1; JNum 2], JStr "X")] world0 0
            (page [JNum 3] (Some JNull)) [JNum 3] _ _ _ _);
    [served|reflexivity|served|right; served].
Defined.

(** X9 at [endless]: seven turns, seven requests, no result. *)
Lemma get_all_pages_never_ends_witness :
  ∃ w', @_get_all_pages endless 7 "u" (Some ∅) world0 = (OutOfFuel, w')
        ∧ length (posted w') = 7%nat.
Proof.
  refine (@get_all_pages_never_ends endless "u" ∅ world0 _ 7).
  intros before after. exists (page [JNum 1] (Some (JStr "X"))), [JNum 1], (JStr "X").
  served.
Defined.

(** X12 at [one_login]: the identifier of the one user record. *)
Lemma login_phids_resolves_in_server_order_witness :
  ∃ w1,
    @_get_all_pages one_login 5 "https://reviews.llvm.org/api/user.search"
      (Some (usernames_data_dict (phabricator world0))) world0
    = (Ok [JObj [("phid", JStr "PHID-USER-a")]], w1)
    ∧ @login_phids one_login 5 world0
      = (Ok [JStr "PHID-USER-a"], set_login_phids [JStr "PHID-USER-a"] w1).
Proof.
  refine (@login_phids_resolves_in_server_order one_login 5 world0
            [[JObj [("phid", JStr "PHID-USER-a")]]] _ _ _).
  - left. reflexivity.
  - eapply serves_last
      with (res := page [JObj [("phid", JStr "PHID-USER-a")]] (Some JNull));
      [reflexivity|served|right; served].
  - simpl. lia.
Defined.

(** X14 at [one_diff]: the one record, wrapped. *)
Lemma search_diffs_wraps_records_witness :
  (@search_diffs one_diff 5 false None None None None world0).1
  = Ok [the_diff].
Proof.
  refine (proj1 (@search_diffs_wraps_records one_diff 5 false None None None
                   None world0 [[diff_record]] _ _)).
  - eapply serves_last with (res := page [diff_record] (Some JNull));
      [reflexivity|served|right; served].
  - simpl. lia.
Defined.

(** X15 at [diff_record], verbose. *)
Lemma differential_display_string_witness :
  ∃ diff,
    @Differential.init (scripted []) 0 diff_record true = Ok diff
    ∧ Differential.__str__ diff = "https://reviews.llvm.org/D134852 Clean up"
    ∧ Differential._data diff = diff_record.
Proof.
  refine (proj1 (@differential_display_string (scripted []) 0 diff_record
                   (JObj [("title", JStr "Clean up");
                          ("uri", JStr "https://reviews.llvm.org/D134852")])
                   (JStr "Clean up") _ _)
            (JStr "https://reviews.llvm.org/D134852") _);
    reflexivity.
Defined.

(** X16 at [event_day5], a comment. *)
Lemma event_kind_unique_witness : EventType.COMMENT = EventType.COMMENT.
Proof.
  refine (event_kind_unique event_day5 EventType.COMMENT EventType.COMMENT _ _);
    reflexivity.
Defined.

(** X17 at [event_accept]: neither a close nor undefined. *)
Lemma event_of_unlisted_type_has_no_kind_witness :
  TransactionEvent.is_type event_accept EventType.CLOSE = false
  ∧ TransactionEvent.is_type event_accept EventType.UNDEFINED = false.
Proof.
  assert (Hnone := event_of_unlisted_type_has_no_kind event_accept).
  split; apply Hnone; try discriminate; intros kind; destruct kind; discriminate.
Defined.

(** X18 at a record with a type and an author and nothing else. *)
Lemma event_without_timestamp_witness :
  ∃ ev,
    TransactionEvent.init
      (JObj [("type", JStr "comment"); ("authorPHID", JStr "PHID-USER-a")])
    = Ok ev
    ∧ @TransactionEvent.is_in_date_range (scripted []) ev None None
      = Raise (KeyError "dateModified").
Proof.
  destruct (@event_without_timestamp (scripted [])
              [("type", JStr "comment"); ("authorPHID", JStr "PHID-USER-a")]
              (JStr "comment") (JStr "PHID-USER-a") eq_refl eq_refl eq_refl)
    as (ev & Hinit & _ & _ & Hrange & _).
  exists ev. split; [exact Hinit|apply Hrange].
Defined.

(** X20 at [one_event]: the one record, as an event. *)
Lemma search_transactions_wraps_records_witness :
  (@search_transactions one_event 5 (JStr "PHID-DREV-6vyv") None world0).1
  = Ok [{| TransactionEvent._data := event_record "comment" 432000;
           TransactionEvent._type := JStr "comment";
           TransactionEvent._author_phid := JStr "PHID-USER-a" |}].
Proof.
  refine (proj1 (@search_transactions_wraps_records one_event 5
                   (JStr "PHID-DREV-6vyv") None world0
                   [[event_record "comment" 432000]] _ _)).
  - eapply serves_last with (res := page [event_record "comment" 432000] None);
      [reflexivity|served|left; reflexivity].
  - simpl. lia.
Defined.

(** X25 at [commented_run]: one line, for the comment on day 10. *)
Lemma commented_fetch_prints_witness :
  ∃ w3,
    @DifferentialsCommented_fetch commented_run 5 day5 world0 = (Ok tt, w3)
    ∧ stdout w3 = ["out of date"].
Proof.
  exact (@commented_fetch_prints commented_run 5 day5 world0
           [JStr "PHID-USER-a"] after_login [the_diff] after_search
           [the_events] (printed 1 after_transactions)
           commented_run_login commented_run_search commented_run_fetched).
Defined.
